(** * Result notification backend: webhook, websocket handshake and status query

    A shallow embedding of [app/routers/result_router.py] and of the
    [DBClient] methods of [app/db_client.py] it calls, together with the
    properties of the handlers that the specification states.

    Conventions of the embedding.
    - A Python [str] is a [string]; every character is one code point
      below 256.
    - A handler is a computation in a state-and-exception monad: Python
      statements that mutate the database, the connection manager or the
      websocket thread an explicit [State]; [raise] and [try]/[except]
      are [raise] and [try_catch].
    - Request bodies are taken after JSON decoding and typed by the
      documented schema ([WebhookData]: [job_id: str],
      [s3_result_path: str]); an absent key and a JSON [null] are both
      [None], as [dict.get] makes them.
    - Collaborators whose code is outside these two files (the connection
      manager, the token verifier, the S3 client, [json], the MySQL
      server) are the fields of an environment [Env].
    - [await] is sequencing; [print] is left out; only exceptions that
      derive from [Exception] are considered.
    - Identities are [str] ([get_job_owner] and the [user_id] column are
      annotated [Optional[str]]), so that [str(x)] is [x]. *)

From Stdlib Require Import ZArith Ascii String List Bool Lia.
From stdpp Require Import base option list gmap strings.

Local Open Scope Z_scope.

(** ** Python values *)

(** The objects [json.loads] can return. A float is kept only as whether
    it is non-zero: truthiness is all this code ever asks of a number. *)
#[warnings="-register-all"]
Inductive pyval : Type :=
| VNone
| VBool (b : bool)
| VInt (n : Z)
| VFloat (nonzero : bool)
| VStr (s : string)
| VList (l : list pyval)
| VDict (d : list (string * pyval)).

Definition is_nil {A} (l : list A) : bool :=
  match l with [] => true | _ :: _ => false end.

Definition str_truthy (s : string) : bool := negb (String.eqb s EmptyString).

(** [bool(v)]. *)
Definition truthy (v : pyval) : bool :=
  match v with
  | VNone => false
  | VBool b => b
  | VInt n => negb (n =? 0)
  | VFloat nonzero => nonzero
  | VStr s => str_truthy s
  | VList l => negb (is_nil l)
  | VDict d => negb (is_nil d)
  end.

(** Truthiness of an [Optional[str]] and of an optional list. *)
Definition opt_truthy (o : option string) : bool :=
  match o with Some s => str_truthy s | None => false end.

Definition list_truthy {A} (o : option (list A)) : bool :=
  match o with Some l => negb (is_nil l) | None => false end.

(** [a or b] on optional strings. *)
Definition py_or (a b : option string) : option string :=
  if opt_truthy a then a else b.

(** The [str] behind a truthy [Optional[str]]. *)
Definition the_str (o : option string) : string := default EmptyString o.

Fixpoint py_chars (s : string) : list string :=
  match s with
  | EmptyString => []
  | String c rest => String c EmptyString :: py_chars rest
  end.

(** [iter(v)]: what a [for] loop over [v] visits, [None] when [v] is not
    iterable ([TypeError]). *)
Definition py_iter (v : pyval) : option (list pyval) :=
  match v with
  | VList l => Some l
  | VStr s => Some (VStr <$> py_chars s)
  | VDict d => Some ((fun kv => VStr kv.1) <$> d)
  | VNone | VBool _ | VInt _ | VFloat _ => None
  end.

(** [key in keys] for a list of strings. *)
Definition py_in (key : string) (keys : list string) : bool :=
  existsb (String.eqb key) keys.

(** ** String methods used on the subprotocol header *)

(** [str.isspace] on one character below 256. *)
Definition py_isspace (c : ascii) : bool :=
  let n := Z.of_nat (nat_of_ascii c) in
  ((9 <=? n) && (n <=? 13)) || ((28 <=? n) && (n <=? 32))
  || (n =? 133) || (n =? 160).

Fixpoint py_lstrip (s : string) : string :=
  match s with
  | String c rest => if py_isspace c then py_lstrip rest else s
  | EmptyString => EmptyString
  end.

(** Drops trailing whitespace: a character is kept when it is not
    whitespace or something is kept after it. *)
Fixpoint py_rstrip (s : string) : string :=
  match s with
  | EmptyString => EmptyString
  | String c rest =>
      match py_rstrip rest with
      | EmptyString => if py_isspace c then EmptyString else String c EmptyString
      | kept => String c kept
      end
  end.

Definition py_strip (s : string) : string := py_rstrip (py_lstrip s).

(** [s.split(",")[0]]: everything before the first comma. *)
Fixpoint py_split_comma_0 (s : string) : string :=
  match s with
  | EmptyString => EmptyString
  | String c rest =>
      if Ascii.eqb c "," then EmptyString else String c (py_split_comma_0 rest)
  end.

(** ** Exceptions and the handler monad *)

Inductive exn : Type :=
| HTTPException (status_code : Z) (detail : string)
| WebSocketDisconnect
| PyException (what : string).

Inductive result (A : Type) : Type :=
| Ok (a : A)
| Raise (e : exn).
Arguments Ok {A} a.
Arguments Raise {A} e.

(** What a call into a collaborator does when its code is not at hand. *)
Inductive outcome (A : Type) : Type :=
| Returns (a : A)
| Raises.
Arguments Returns {A} a.
Arguments Raises {A}.

Definition M (St A : Type) : Type := St -> result A * St.

Definition ret {St A} (a : A) : M St A := fun st => (Ok a, st).

Definition raise {St A} (e : exn) : M St A := fun st => (Raise e, st).

Definition bind {St A B} (m : M St A) (k : A -> M St B) : M St B :=
  fun st =>
    match m st with
    | (Ok a, st') => k a st'
    | (Raise e, st') => (Raise e, st')
    end.

(** [try: m / except Exception as e: h e]. The state reached when the
    exception was raised is the one the handler starts from. *)
Definition try_catch {St A} (m : M St A) (h : exn -> M St A) : M St A :=
  fun st =>
    match m st with
    | (Ok a, st') => (Ok a, st')
    | (Raise e, st') => h e st'
    end.

Declare Scope py_scope.
Delimit Scope py_scope with py.
Notation "x <- m ;; k" := (bind m (fun x => k))
  (at level 100, m at next level, right associativity) : py_scope.
Notation "m ;; k" := (bind m (fun _ => k))
  (at level 100, right associativity) : py_scope.
Notation "'TRY' m 'EXCEPT' e => h" := (try_catch m (fun e => h))
  (at level 100, m at level 200, e name, h at level 200) : py_scope.

(** The status line the framework answers with: the route's
    [status_code] on return, the exception's own code for an
    [HTTPException], 500 for anything else that escapes. *)
Definition http_status {A} (route_status : Z) (r : result A) : Z :=
  match r with
  | Ok _ => route_status
  | Raise (HTTPException code _) => code
  | Raise _ => 500
  end.

(** ** The upload table and the statements [DBClient] sends *)

(** The columns of [DB_TABLE_NAME] that these handlers read or write,
    keyed by [id]. [NULL] is [None]; [s3_result_paths] is kept as the
    Python object the driver hands back ([VNone] for [NULL]). *)
Record Row : Type := {
  user_id : option string;
  processing_status : string;
  s3_result_path : option string;
  s3_result_paths : pyval;
}.

(** One constructor per SQL text in [db_client.py], with its parameters
    in the order of the [params] tuple. *)
Inductive Sql : Type :=
| UpdateStatusPathPaths (status s3_path s3_paths job_id : string)
| UpdateStatusPaths (status s3_paths job_id : string)
| UpdateStatusPath (status : string) (s3_path : option string) (job_id : string)
| UpdateStatus (status job_id : string)
| SelectRecordWithPaths (job_id : string)
| SelectRecord (job_id : string)
| SelectOwner (job_id : string).

(** [UPDATE ... WHERE id = %s]: a row that is not there is not an error,
    the statement changes nothing. *)
Definition run_update (q : Sql) (t : gmap string Row) : gmap string Row :=
  match q with
  | UpdateStatusPathPaths status s3_path s3_paths job_id =>
      alter (fun r => {| user_id := user_id r; processing_status := status;
                         s3_result_path := Some s3_path;
                         s3_result_paths := VStr s3_paths |}) job_id t
  | UpdateStatusPaths status s3_paths job_id =>
      alter (fun r => {| user_id := user_id r; processing_status := status;
                         s3_result_path := s3_result_path r;
                         s3_result_paths := VStr s3_paths |}) job_id t
  | UpdateStatusPath status s3_path job_id =>
      alter (fun r => {| user_id := user_id r; processing_status := status;
                         s3_result_path := s3_path;
                         s3_result_paths := s3_result_paths r |}) job_id t
  | UpdateStatus status job_id =>
      alter (fun r => {| user_id := user_id r; processing_status := status;
                         s3_result_path := s3_result_path r;
                         s3_result_paths := s3_result_paths r |}) job_id t
  | SelectRecordWithPaths _ | SelectRecord _ | SelectOwner _ => t
  end.

(** [cursor.fetchone()] after a [SELECT ... WHERE id = %s LIMIT 1]. *)
Definition fetchone (q : Sql) (t : gmap string Row) : option Row :=
  match q with
  | SelectRecordWithPaths job_id | SelectRecord job_id | SelectOwner job_id =>
      t !! job_id
  | _ => None
  end.

(** ** Collaborators *)

(** Calls the manager receives, in order. *)
Inductive ManagerCall : Type :=
| CallConnect (job_id : string) (websocket : nat) (user_id : string)
| CallDisconnect (job_id : string)
| CallSendResult (job_id : string) (result_urls : list string).

(** What the server does on the websocket, in order. *)
Inductive WsPayload : Type :=
| ErrorPayload (error : string)
| RegisteredPayload (job_id : string).

Inductive WsEvent : Type :=
| WsAccept
| WsSendJson (payload : WsPayload)
| WsClose (code : Z).

(** Everything the two files import or talk to.
    - [registry] with the three [manager_*] functions is
      [app.websocket_manager.manager]: its state and its methods.
    - [get_user_id_from_token] is the function of that name in
      [app.auth_utils]: the identity of a token, [None], or an exception.
    - [create_presigned_get_url n key] is what the [n]-th call to the S3
      client answers for [key]: [None] when it raises.
    - [execute_fails n q] tells whether the [n]-th statement handed to the
      MySQL connection is rejected when it is [q] (a missing column, a
      lost connection): [cursor.execute] or the [commit] after it raises.
    - [DB_TABLE_NAME] is the environment variable of that name. *)
Record Env : Type := {
  registry : Type;
  manager_connect : string -> nat -> string -> registry -> registry;
  manager_disconnect : string -> registry -> registry;
  manager_send_result_to_client :
    string -> list string -> registry -> outcome bool * registry;
  get_user_id_from_token : string -> outcome (option string);
  create_presigned_get_url : nat -> pyval -> option string;
  json_dumps : list string -> string;
  json_loads : string -> option pyval;
  execute_fails : nat -> Sql -> bool;
  DB_TABLE_NAME : option string;
}.

(** ** State threaded through a handler *)

Record State (E : Env) : Type := {
  table : gmap string Row;
  sql_log : list Sql;
  s3_log : list pyval;
  manager : registry E;
  manager_log : list ManagerCall;
  ws_log : list WsEvent;
  temp_id : option string;
}.
Arguments table {E} _.
Arguments sql_log {E} _.
Arguments s3_log {E} _.
Arguments manager {E} _.
Arguments manager_log {E} _.
Arguments ws_log {E} _.
Arguments temp_id {E} _.

Section Handlers.

Context (E : Env).

Local Open Scope py_scope.

Local Abbreviation St := (State E).

(** *** Primitive effects *)

(** [cursor.execute(sql, params)] and the [commit] or [fetchone] that
    follows it, as one step. The statement is logged whether or not the
    server accepts it. *)
Definition execute (q : Sql) : M St (option Row) :=
  fun st =>
    let n := length (sql_log st) in
    if execute_fails E n q then
      (Raise (PyException "mysql.connector.Error"),
       {| table := table st; sql_log := sql_log st ++ [q];
          s3_log := s3_log st; manager := manager st;
          manager_log := manager_log st; ws_log := ws_log st;
          temp_id := temp_id st |})
    else
      (Ok (fetchone q (table st)),
       {| table := run_update q (table st); sql_log := sql_log st ++ [q];
          s3_log := s3_log st; manager := manager st;
          manager_log := manager_log st; ws_log := ws_log st;
          temp_id := temp_id st |}).

(** [s3_client.create_presigned_get_url(key)]. *)
Definition presign (key : pyval) : M St string :=
  fun st =>
    let n := length (s3_log st) in
    let st' := {| table := table st; sql_log := sql_log st;
                  s3_log := s3_log st ++ [key]; manager := manager st;
                  manager_log := manager_log st; ws_log := ws_log st;
                  temp_id := temp_id st |} in
    match create_presigned_get_url E n key with
    | Some url => (Ok url, st')
    | None => (Raise (PyException "botocore ClientError"), st')
    end.

Definition call_manager (c : ManagerCall) (f : registry E -> registry E) : M St unit :=
  fun st =>
    (Ok tt,
     {| table := table st; sql_log := sql_log st; s3_log := s3_log st;
        manager := f (manager st); manager_log := manager_log st ++ [c];
        ws_log := ws_log st; temp_id := temp_id st |}).

(** [await manager.connect(job_id, websocket, user_id)]. *)
Definition connect (job_id : string) (websocket : nat) (user : string) : M St unit :=
  call_manager (CallConnect job_id websocket user)
               (manager_connect E job_id websocket user).

(** [manager.disconnect(job_id)]. *)
Definition disconnect (job_id : string) : M St unit :=
  call_manager (CallDisconnect job_id) (manager_disconnect E job_id).

(** [await manager.send_result_to_client(job_id, urls)]. *)
Definition send_result_to_client (job_id : string) (urls : list string) : M St bool :=
  fun st =>
    let (o, reg) := manager_send_result_to_client E job_id urls (manager st) in
    let st' := {| table := table st; sql_log := sql_log st; s3_log := s3_log st;
                  manager := reg;
                  manager_log := manager_log st ++ [CallSendResult job_id urls];
                  ws_log := ws_log st; temp_id := temp_id st |} in
    match o with
    | Returns b => (Ok b, st')
    | Raises => (Raise (PyException "send_result_to_client"), st')
    end.

Definition ws_emit (ev : WsEvent) : M St unit :=
  fun st =>
    (Ok tt,
     {| table := table st; sql_log := sql_log st; s3_log := s3_log st;
        manager := manager st; manager_log := manager_log st;
        ws_log := ws_log st ++ [ev]; temp_id := temp_id st |}).

Definition set_temp_id (v : option string) : M St unit :=
  fun st =>
    (Ok tt,
     {| table := table st; sql_log := sql_log st; s3_log := s3_log st;
        manager := manager st; manager_log := manager_log st;
        ws_log := ws_log st; temp_id := v |}).

Definition get_temp_id : M St (option string) :=
  fun st => (Ok (temp_id st), st).

(** *** [app/db_client.py] *)

Definition table_configured : bool := opt_truthy (DB_TABLE_NAME E).

Definition not_configured {A} : M St A :=
  raise (PyException "DB_TABLE_NAME not configured").

(** [DBClient.update_upload_status] *)
Definition update_upload_status (job_id status : string)
    (s3_result_path : option string) : M St unit :=
  if negb table_configured then not_configured else
  TRY
    (match s3_result_path with
     | Some p => execute (UpdateStatusPath status (Some p) job_id)
     | None => execute (UpdateStatus status job_id)
     end ;; ret tt)
  EXCEPT _ =>
    (TRY (execute (UpdateStatus status job_id) ;; ret tt)
     EXCEPT e => raise e).

(** [DBClient.update_upload_status_with_paths] *)
Definition update_upload_status_with_paths (job_id status : string)
    (s3_result_path s3_result_paths : option string) : M St unit :=
  if negb table_configured then not_configured else
  TRY
    (match s3_result_paths, s3_result_path with
     | Some ps, Some p => execute (UpdateStatusPathPaths status p ps job_id)
     | Some ps, None => execute (UpdateStatusPaths status ps job_id)
     | None, Some p => execute (UpdateStatusPath status (Some p) job_id)
     | None, None => execute (UpdateStatus status job_id)
     end ;; ret tt)
  EXCEPT _ =>
    (TRY (execute (UpdateStatusPath status s3_result_path job_id) ;; ret tt)
     EXCEPT e => raise e).

(** The dictionary [get_upload_record] returns. *)
Record UploadRecord : Type := {
  rec_job_id : string;
  rec_user_id : option string;
  rec_status : string;
  rec_s3_result_path : option string;
  rec_s3_result_paths : pyval;
}.

(** [DBClient.get_upload_record] *)
Definition get_upload_record (job_id : string) : M St (option UploadRecord) :=
  if negb table_configured then not_configured else
  TRY
    (row <- execute (SelectRecordWithPaths job_id) ;;
     match row with
     | None => ret None
     | Some r =>
         ret (Some {| rec_job_id := job_id; rec_user_id := user_id r;
                      rec_status := processing_status r;
                      rec_s3_result_path := s3_result_path r;
                      rec_s3_result_paths := s3_result_paths r |})
     end)
  EXCEPT _ =>
    (TRY
       (row <- execute (SelectRecord job_id) ;;
        match row with
        | None => ret None
        | Some r =>
            ret (Some {| rec_job_id := job_id; rec_user_id := user_id r;
                         rec_status := processing_status r;
                         rec_s3_result_path := s3_result_path r;
                         rec_s3_result_paths := VNone |})
        end)
     EXCEPT e => raise e).

(** [DBClient.get_job_owner] *)
Definition get_job_owner (job_id : string) : M St (option string) :=
  if negb table_configured then not_configured else
  row <- execute (SelectOwner job_id) ;;
  match row with
  | None => ret None
  | Some r => ret (user_id r)
  end.

(** *** [app/routers/result_router.py]: the completion webhook *)

(** The callback as [handle_webhook] sees it: whether
    [verify_runpod_signature] lets it through, and the decoded body. *)
Record WebhookRequest : Type := {
  signature_ok : bool;
  data_job_id : option string;
  data_s3_result_path : option string;
  data_s3_result_key : option string;
  data_s3_result_paths : option (list string);
}.

Record WebhookResponse : Type := {
  message : string;
  result_urls : list string;
}.

(** Modelled from the spec: [app/webhook_auth.py] is not among the
    sources. A callback whose signature or timestamp is not accepted is
    stopped before anything else runs, with an unauthorized response
    (section 4.3; 401 by the comment in [handle_webhook]). *)
Definition verify_runpod_signature (request : WebhookRequest) : M St unit :=
  if signature_ok request then ret tt
  else raise (HTTPException 401 "invalid signature").

(** Step 2 of [handle_webhook]: the two nested [try] blocks around the
    database update. Whatever escapes the inner calls is printed and
    dropped by the outer [except]. ([json.dumps] does not raise on a
    list of strings, so the [except] around it is never entered.) *)
Definition persist_completed (request : WebhookRequest)
    (job_id s3_key : string) : M St unit :=
  TRY
    (let s3_paths_json :=
       if list_truthy (data_s3_result_paths request)
       then Some (json_dumps E (default [] (data_s3_result_paths request)))
       else None in
     TRY
       update_upload_status_with_paths job_id "COMPLETED" (Some s3_key) s3_paths_json
     EXCEPT _ =>
       update_upload_status job_id "COMPLETED" (Some s3_key))
  EXCEPT _ => ret tt.

(** [all_keys] after the primary key has been put in: the list of the
    body, or a new empty list, with [s3_key] inserted at index 0 when it
    is not an element yet. ([insert] changes the list of the body in
    place; the body's list was serialized for the database before that,
    and nothing reads it afterwards.) *)
Definition all_keys_of (s3_key : string) (paths : option (list string)) : list string :=
  let all_keys := if list_truthy paths then default [] paths else [] in
  if str_truthy s3_key && negb (py_in s3_key all_keys)
  then s3_key :: all_keys
  else all_keys.

(** The [for key in ...: try: append(presign(key)) except: skip] loop,
    shared by the webhook and the status query. *)
Fixpoint presign_each (keys : list pyval) (presigned_urls : list string)
    : M St (list string) :=
  match keys with
  | [] => ret presigned_urls
  | key :: rest =>
      urls <- (TRY (url <- presign key ;; ret (presigned_urls ++ [url]))
               EXCEPT _ => ret presigned_urls) ;;
      presign_each rest urls
  end.

(** Step 3 of [handle_webhook]. *)
Definition generate_urls (request : WebhookRequest) (s3_key : string)
    : M St (list string) :=
  let all_keys := all_keys_of s3_key (data_s3_result_paths request) in
  presigned_urls <- presign_each (VStr <$> all_keys) [] ;;
  if is_nil presigned_urls then
    TRY (url <- presign (VStr s3_key) ;; ret (presigned_urls ++ [url]))
    EXCEPT _ =>
      raise (HTTPException 500 "Failed to generate presigned result URL(s)")
  else ret presigned_urls.

(** Step 4 of [handle_webhook]: the push and the response built from
    its result. *)
Definition push_and_respond (job_id : string) (presigned_urls : list string)
    : M St WebhookResponse :=
  pushed <- (TRY send_result_to_client job_id presigned_urls
             EXCEPT _ => ret false) ;;
  let response_body :=
    {| message := "Result URL(s) generated."; result_urls := presigned_urls |} in
  if pushed : bool then
    ret {| message := "Result pushed successfully.";
           result_urls := result_urls response_body |}
  else ret response_body.

(** Steps 0 to 3: everything [handle_webhook] does before the push.
    Returns the job id and the URLs the push is called with. *)
Definition webhook_until_push (request : WebhookRequest)
    : M St (string * list string) :=
  verify_runpod_signature request ;;
  let job_id := data_job_id request in
  let s3_key := py_or (data_s3_result_path request) (data_s3_result_key request) in
  if negb (opt_truthy job_id) || negb (opt_truthy s3_key) then
    raise (HTTPException 400 "job_id and s3_result_path required")
  else
    persist_completed request (the_str job_id) (the_str s3_key) ;;
    presigned_urls <- generate_urls request (the_str s3_key) ;;
    ret (the_str job_id, presigned_urls).

(** [handle_webhook], route [POST /result/webhook/job/complete],
    [status_code=202]. *)
Definition handle_webhook (request : WebhookRequest) : M St WebhookResponse :=
  reached <- webhook_until_push request ;;
  push_and_respond reached.1 reached.2.

(** *** The status query *)

Record StatusResponse : Type := {
  resp_job_id : string;
  resp_status : string;
  resp_result_url : option string;
  resp_result_urls : option (list string);
}.

(** The [keys] variable of [get_result_status] for a COMPLETED record. *)
Definition status_keys (s3_key : option string) (s3_paths : pyval) : pyval :=
  if truthy s3_paths then
    match s3_paths with
    | VStr s =>
        match json_loads E s with
        | Some decoded => decoded
        | None => VList [s3_paths]
        end
    | _ => s3_paths
    end
  else if opt_truthy s3_key then VList [VStr (the_str s3_key)]
  else VNone.

(** [get_result_status], route [GET /result/status]. *)
Definition get_result_status (job_id : string) : M St StatusResponse :=
  if negb (str_truthy job_id) then
    raise (HTTPException 400 "job_id is required")
  else
    rec <- (TRY get_upload_record job_id
            EXCEPT _ => raise (HTTPException 500 "internal error")) ;;
    match rec with
    | None => raise (HTTPException 404 "job not found")
    | Some rec =>
        let status := rec_status rec in
        let s3_key := rec_s3_result_path rec in
        let s3_paths := rec_s3_result_paths rec in
        result_urls <-
          (if String.eqb status "COMPLETED" then
             let keys := status_keys s3_key s3_paths in
             if truthy keys then
               match py_iter keys with
               | None => raise (PyException "TypeError: object is not iterable")
               | Some keys =>
                   presigned_list <- presign_each keys [] ;;
                   ret (if is_nil presigned_list then None else Some presigned_list)
               end
             else ret None
           else ret None) ;;
        let single := match result_urls with
                      | Some (first :: _) => Some first
                      | _ => None
                      end in
        ret {| resp_job_id := job_id; resp_status := status;
               resp_result_url := single; resp_result_urls := result_urls |}
    end.

(** *** The registration handshake *)

(** What the handshake reads from the upgrade request. *)
Record WebSocket : Type := {
  ws_handle : nat;
  header_sec_websocket_protocol : option string;
  query_token : option string;
  cookie_id_token : option string;
  cookie_access_token : option string;
}.

(** A text frame from the client, by what [json.loads] makes of it: not
    JSON, JSON but not an object, or an object with its ["action"] and
    ["job_id"] entries. *)
Inductive Frame : Type :=
| FrameNotJson
| FrameNotObject
| FrameObject (action job_id : option string).

(** Token lookup: subprotocol header, then [?token=], then the cookies. *)
Definition extract_token (websocket : WebSocket) : option string :=
  let proto := header_sec_websocket_protocol websocket in
  let token :=
    if opt_truthy proto
    then Some (py_strip (py_split_comma_0 (the_str proto)))
    else None in
  let token := if negb (opt_truthy token) then query_token websocket else token in
  if negb (opt_truthy token) then
    let cookie_token :=
      py_or (cookie_id_token websocket) (cookie_access_token websocket) in
    if opt_truthy cookie_token then cookie_token else token
  else token.

(** [get_user_id_from_token(token) if token else None], with the
    [except] that turns a verifier error into no identity. *)
Definition resolve_user (token : option string) : option string :=
  if opt_truthy token then
    match get_user_id_from_token E (the_str token) with
    | Returns user_id => user_id
    | Raises => None
    end
  else None.

(** [await websocket.send_json(payload)] and [await websocket.close(code)].
    The client is taken to be reachable while the handshake answers it:
    a disconnection shows at [receive_text] only. *)
Definition send_json (payload : WsPayload) : M St unit :=
  ws_emit (WsSendJson payload).

Definition close (code : Z) : M St unit := ws_emit (WsClose code).

(** [while True: await websocket.receive_text()]. The frames still to
    come are a finite list; after the last one the client is gone and
    [receive_text] raises [WebSocketDisconnect]. *)
Fixpoint receive_forever (frames : list Frame) : M St unit :=
  match frames with
  | [] => raise WebSocketDisconnect
  | _ :: rest => receive_forever rest
  end.

(** The two [except] clauses of the handshake; they differ by a print. *)
Definition cleanup (e : exn) : M St unit :=
  match e with
  | WebSocketDisconnect =>
      tid <- get_temp_id ;;
      if opt_truthy tid then disconnect (the_str tid) else ret tt
  | _ =>
      tid <- get_temp_id ;;
      if opt_truthy tid then disconnect (the_str tid) else ret tt
  end.

(** [websocket_preconnect], route [/result/ws/analysis]. [frames] are the
    text frames the client sends before it disconnects. *)
Definition websocket_preconnect (websocket : WebSocket) (frames : list Frame)
    : M St unit :=
  ws_emit WsAccept ;;
  set_temp_id None ;;
  TRY
    (let token := extract_token websocket in
     match frames with
     | [] => raise WebSocketDisconnect
     | msg :: frames =>
         match msg with
         | FrameNotJson =>
             send_json (ErrorPayload "invalid_json") ;;
             close 1003
         | FrameNotObject =>
             raise (PyException "AttributeError: no attribute 'get'")
         | FrameObject action job =>
             if bool_decide (action = Some "register") && opt_truthy job then
               let job_id := the_str job in
               set_temp_id (Some job_id) ;;
               let user_id := resolve_user token in
               owner_id <- get_job_owner job_id ;;
               match owner_id with
               | None =>
                   send_json (ErrorPayload "job_not_found") ;;
                   close 1008
               | Some owner =>
                   match user_id with
                   | None =>
                       send_json (ErrorPayload "forbidden") ;;
                       close 1008
                   | Some user =>
                       if negb (String.eqb user owner) then
                         send_json (ErrorPayload "forbidden") ;;
                         close 1008
                       else
                         connect job_id (ws_handle websocket) user ;;
                         send_json (RegisteredPayload job_id) ;;
                         receive_forever frames
                   end
               end
             else
               send_json (ErrorPayload "expected register with job_id") ;;
               close 1003
         end
     end)
  EXCEPT e => cleanup e.

End Handlers.

(** ** A concrete [json] for the examples

    [dumps] and [loads] follow Python's [json.dumps] (default separators,
    [ensure_ascii]) and [json.loads] on strings whose characters are below
    256. A float is read as non-zero when its digits are; exponents that
    underflow to [0.0] and [\u] escapes above 255 are not covered
    ([loads] gives [None] for the latter). *)
Module PyJson.

Definition dquote : ascii := "034"%char.

Definition backslash : ascii := "092"%char.

Definition hex_digit (n : nat) : ascii :=
  match n with
  | 0 => "0" | 1 => "1" | 2 => "2" | 3 => "3" | 4 => "4" | 5 => "5"
  | 6 => "6" | 7 => "7" | 8 => "8" | 9 => "9" | 10 => "a" | 11 => "b"
  | 12 => "c" | 13 => "d" | 14 => "e" | _ => "f"
  end%nat%char.

Definition escape_char (c : ascii) : string :=
  let n := nat_of_ascii c in
  if Ascii.eqb c dquote then String backslash (String dquote EmptyString)
  else if Ascii.eqb c backslash then String backslash (String backslash EmptyString)
  else if (n =? 10)%nat then "\n"
  else if (n =? 13)%nat then "\r"
  else if (n =? 9)%nat then "\t"
  else if (n =? 8)%nat then "\b"
  else if (n =? 12)%nat then "\f"
  else if ((n <? 32) || (126 <? n))%nat then
    "\u00" +:+ String (hex_digit (n / 16)) (String (hex_digit (n mod 16)) EmptyString)
  else String c EmptyString.

Fixpoint escape (s : string) : string :=
  match s with
  | EmptyString => EmptyString
  | String c rest => escape_char c +:+ escape rest
  end.

Definition quote (s : string) : string :=
  String dquote (escape s +:+ String dquote EmptyString).

Fixpoint join (sep : string) (parts : list string) : string :=
  match parts with
  | [] => EmptyString
  | [p] => p
  | p :: rest => p +:+ sep +:+ join sep rest
  end.

(** [json.dumps] of a list of strings. *)
Definition dumps (l : list string) : string :=
  "[" +:+ join ", " (quote <$> l) +:+ "]".

Definition is_ws (c : ascii) : bool :=
  let n := nat_of_ascii c in
  ((n =? 32) || (n =? 9) || (n =? 10) || (n =? 13))%nat.

Fixpoint skip_ws (s : string) : string :=
  match s with
  | String c rest => if is_ws c then skip_ws rest else s
  | EmptyString => s
  end.

Definition digit_val (c : ascii) : option nat :=
  let n := nat_of_ascii c in
  if ((48 <=? n) && (n <=? 57))%nat then Some (n - 48)%nat else None.

Definition hex_val (c : ascii) : option nat :=
  let n := nat_of_ascii c in
  if ((48 <=? n) && (n <=? 57))%nat then Some (n - 48)%nat
  else if ((97 <=? n) && (n <=? 102))%nat then Some (n - 87)%nat
  else if ((65 <=? n) && (n <=? 70))%nat then Some (n - 55)%nat
  else None.

(** The body of a string literal, after the opening quote. *)
Fixpoint string_body (s : string) : option (string * string) :=
  match s with
  | EmptyString => None
  | String c rest =>
      if Ascii.eqb c dquote then Some (EmptyString, rest)
      else if Ascii.eqb c backslash then
        match rest with
        | String e rest' =>
            let simple (d : ascii) :=
              match string_body rest' with
              | Some (body, tail) => Some (String d body, tail)
              | None => None
              end in
            if Ascii.eqb e dquote then simple dquote
            else if Ascii.eqb e backslash then simple backslash
            else if Ascii.eqb e "/" then simple "/"%char
            else if Ascii.eqb e "b" then simple (ascii_of_nat 8)
            else if Ascii.eqb e "f" then simple (ascii_of_nat 12)
            else if Ascii.eqb e "n" then simple (ascii_of_nat 10)
            else if Ascii.eqb e "r" then simple (ascii_of_nat 13)
            else if Ascii.eqb e "t" then simple (ascii_of_nat 9)
            else if Ascii.eqb e "u" then
              match rest' with
              | String h1 (String h2 (String h3 (String h4 rest''))) =>
                  match hex_val h1, hex_val h2, hex_val h3, hex_val h4,
                        string_body rest'' with
                  | Some 0%nat, Some 0%nat, Some a, Some b, Some (body, tail) =>
                      Some (String (ascii_of_nat (16 * a + b)) body, tail)
                  | _, _, _, _, _ => None
                  end
              | _ => None
              end
            else None
        | EmptyString => None
        end
      else if (nat_of_ascii c <? 32)%nat then None
      else
        match string_body rest with
        | Some (body, tail) => Some (String c body, tail)
        | None => None
        end
  end.

(** A maximal run of decimal digits: its value, whether it is empty and
    whether it starts with [0], and the rest. *)
Fixpoint digits (acc : Z) (s : string) : Z * string :=
  match s with
  | String c rest =>
      match digit_val c with
      | Some d => digits (10 * acc + Z.of_nat d) rest
      | None => (acc, s)
      end
  | EmptyString => (acc, s)
  end.

Definition starts_with_digit (s : string) : bool :=
  match s with
  | String c _ => bool_decide (is_Some (digit_val c))
  | EmptyString => false
  end.

Definition starts_with (c : ascii) (s : string) : bool :=
  match s with
  | String c' _ => Ascii.eqb c c'
  | EmptyString => false
  end.

Definition tail (s : string) : string :=
  match s with String _ rest => rest | EmptyString => s end.

(** A JSON number: optional minus, integer part without leading zeros,
    optional fraction, optional exponent. *)
Definition number (s : string) : option (pyval * string) :=
  let negative := starts_with "-" s in
  let s1 := if negative then tail s else s in
  if negb (starts_with_digit s1) then None else
  let (int_part, s2) :=
    if starts_with "0" s1 then (0, tail s1) else digits 0 s1 in
  let frac :=
    if starts_with "." s2 && starts_with_digit (tail s2)
    then Some (digits 0 (tail s2)) else None in
  let s3 := match frac with Some (_, r) => r | None => s2 end in
  let after_e :=
    if starts_with "e" s3 || starts_with "E" s3 then
      let r := tail s3 in
      let r := if starts_with "+" r || starts_with "-" r then tail r else r in
      if starts_with_digit r then Some (digits 0 r).2 else None
    else None in
  match frac, after_e with
  | None, None => Some (VInt (if negative then - int_part else int_part), s2)
  | _, _ =>
      let frac_val := match frac with Some (f, _) => f | None => 0 end in
      Some (VFloat (negb ((int_part =? 0) && (frac_val =? 0))),
            match after_e with Some r => r | None => s3 end)
  end.

(** [d[key] = v] on a dictionary kept as an association list in
    insertion order. *)
Fixpoint dict_set (key : string) (v : pyval) (d : list (string * pyval))
    : list (string * pyval) :=
  match d with
  | [] => [(key, v)]
  | (k, w) :: rest =>
      if String.eqb k key then (k, v) :: rest else (k, w) :: dict_set key v rest
  end.

Fixpoint strip_prefix (p s : string) : option string :=
  match p, s with
  | EmptyString, _ => Some s
  | String a p', String b s' => if Ascii.eqb a b then strip_prefix p' s' else None
  | String _ _, EmptyString => None
  end.

(** One JSON value at the head of [s]; [fuel] bounds the nesting and the
    number of members read. *)
Fixpoint value (fuel : nat) (s : string) : option (pyval * string) :=
  match fuel with
  | O => None
  | S fuel =>
      let s := skip_ws s in
      match strip_prefix "null" s, strip_prefix "true" s,
            strip_prefix "false" s, strip_prefix "NaN" s,
            strip_prefix "Infinity" s, strip_prefix "-Infinity" s with
      | Some r, _, _, _, _, _ => Some (VNone, r)
      | _, Some r, _, _, _, _ => Some (VBool true, r)
      | _, _, Some r, _, _, _ => Some (VBool false, r)
      | _, _, _, Some r, _, _ | _, _, _, _, Some r, _ | _, _, _, _, _, Some r =>
          Some (VFloat true, r)
      | None, None, None, None, None, None =>
          match s with
          | EmptyString => None
          | String c rest =>
              if Ascii.eqb c dquote then
                match string_body rest with
                | Some (body, r) => Some (VStr body, r)
                | None => None
                end
              else if Ascii.eqb c "[" then
                if starts_with "]" (skip_ws rest)
                then Some (VList [], tail (skip_ws rest))
                else
                  match elements fuel rest with
                  | Some (l, r) => Some (VList l, r)
                  | None => None
                  end
              else if Ascii.eqb c "{" then
                if starts_with "}" (skip_ws rest)
                then Some (VDict [], tail (skip_ws rest))
                else
                  match members fuel [] rest with
                  | Some (d, r) => Some (VDict d, r)
                  | None => None
                  end
              else number s
          end
      end
  end
with elements (fuel : nat) (s : string) : option (list pyval * string) :=
  match fuel with
  | O => None
  | S fuel =>
      match value fuel s with
      | None => None
      | Some (v, r) =>
          let r := skip_ws r in
          if starts_with "," r then
            match elements fuel (tail r) with
            | Some (vs, r') => Some (v :: vs, r')
            | None => None
            end
          else if starts_with "]" r then Some ([v], tail r)
          else None
      end
  end
with members (fuel : nat) (d : list (string * pyval)) (s : string)
    : option (list (string * pyval) * string) :=
  match fuel with
  | O => None
  | S fuel =>
      let s := skip_ws s in
      if negb (starts_with dquote s) then None else
      match string_body (tail s) with
      | None => None
      | Some (key, r) =>
          let r := skip_ws r in
          if negb (starts_with ":" r) then None else
          match value fuel (tail r) with
          | None => None
          | Some (v, r) =>
              let d := dict_set key v d in
              let r := skip_ws r in
              if starts_with "," r then members fuel d (tail r)
              else if starts_with "}" r then Some (d, tail r)
              else None
          end
      end
  end.

(** [json.loads]: one value, then nothing but whitespace. *)
Definition loads (s : string) : option pyval :=
  match value (S (String.length s)) s with
  | Some (v, r) =>
      match skip_ws r with
      | EmptyString => Some v
      | String _ _ => None
      end
  | None => None
  end.

End PyJson.

(** ** The connection registry *)

(** Modelled from the spec: [app/websocket_manager.py] is not among the
    sources. Section 4.1 describes the registry as a mapping from job id
    to one (connection, owner) pair: [connect] replaces any registration
    for the job, [disconnect] removes it and is a no-op when there is
    none, and [push] returns true only if a registration exists and the
    send on it completes; it returns false, and raises nothing, when the
    job has no registration or the send fails. [alive] tells for which
    connections a send completes. *)
Module Registry.

Record Registration : Type := {
  connection : nat;
  owner : string;
}.

Definition connect (job_id : string) (conn : nat) (owner_identity : string)
    (r : gmap string Registration) : gmap string Registration :=
  <[job_id := {| connection := conn; owner := owner_identity |}]> r.

Definition disconnect (job_id : string) (r : gmap string Registration)
    : gmap string Registration :=
  delete job_id r.

Definition push (alive : nat -> bool) (job_id : string) (result_urls : list string)
    (r : gmap string Registration) : outcome bool * gmap string Registration :=
  match r !! job_id with
  | Some reg => (Returns (alive (connection reg)), r)
  | None => (Returns false, r)
  end.

End Registry.

(** ** Collaborators and states of the examples *)

(** An environment over the registry above and [PyJson], for a choice
    of the remaining collaborators. *)
Definition make_env (alive : nat -> bool)
    (verifier : string -> outcome (option string))
    (signer : nat -> pyval -> option string)
    (rejects : nat -> Sql -> bool) : Env :=
  {| registry := gmap string Registry.Registration;
     manager_connect := Registry.connect;
     manager_disconnect := Registry.disconnect;
     manager_send_result_to_client := Registry.push alive;
     get_user_id_from_token := verifier;
     create_presigned_get_url := signer;
     json_dumps := PyJson.dumps;
     json_loads := PyJson.loads;
     execute_fails := rejects;
     DB_TABLE_NAME := Some "uploads" |}.

(** A signer that answers [https://s3/<key>] for every string key, at
    every call. *)
Definition sign_all (n : nat) (key : pyval) : option string :=
  match key with
  | VStr k => Some ("https://s3/" +:+ k)
  | _ => None
  end.

(** A verifier for which the token [tok-<user>] is [user]'s, and every
    other token is invalid. *)
Definition verify_prefix (token : string) : outcome (option string) :=
  match PyJson.strip_prefix "tok-" token with
  | Some user => Returns (Some user)
  | None => Raises
  end.

Definition healthy_db (n : nat) (q : Sql) : bool := false.

Definition broken_db (n : nat) (q : Sql) : bool := true.

(** The [s3_result_paths] column does not exist. *)
Definition no_paths_column (n : nat) (q : Sql) : bool :=
  match q with
  | UpdateStatusPathPaths _ _ _ _ | UpdateStatusPaths _ _ _
  | SelectRecordWithPaths _ => true
  | _ => false
  end.

Definition pending_row (user : option string) : Row :=
  {| user_id := user; processing_status := "PENDING";
     s3_result_path := None; s3_result_paths := VNone |}.

(** A state with the given table and registry and nothing logged yet. *)
Definition initial_state (E : Env) (t : gmap string Row) (reg : registry E)
    : State E :=
  {| table := t; sql_log := []; s3_log := []; manager := reg;
     manager_log := []; ws_log := []; temp_id := None |}.

Definition callback (job_id s3_path : option string)
    (paths : option (list string)) : WebhookRequest :=
  {| signature_ok := true; data_job_id := job_id;
     data_s3_result_path := s3_path; data_s3_result_key := None;
     data_s3_result_paths := paths |}.

(** The running example of section 8: job [J1] of user [U1], every
    collaborator working, no client registered. *)
Definition env1 : Env :=
  make_env (fun _ => true) verify_prefix sign_all healthy_db.

Definition table1 : gmap string Row := {[ "J1" := pending_row (Some "U1") ]}.

Definition state1 : State env1 := initial_state env1 table1 ∅.

Definition websocket1 (protocol : option string) : WebSocket :=
  {| ws_handle := 7; header_sec_websocket_protocol := protocol;
     query_token := None; cookie_id_token := None;
     cookie_access_token := None |}.

(** A database that rejects every statement, with the other
    collaborators of [env1]. *)
Definition env_broken_db : Env :=
  make_env (fun _ => true) verify_prefix sign_all broken_db.

(** A manager whose push always raises, with the other collaborators of
    [env1]. *)
Definition env_push_raises : Env :=
  {| registry := unit;
     manager_connect := fun _ _ _ r => r;
     manager_disconnect := fun _ r => r;
     manager_send_result_to_client := fun _ _ r => (Raises, r);
     get_user_id_from_token := verify_prefix;
     create_presigned_get_url := sign_all;
     json_dumps := PyJson.dumps;
     json_loads := PyJson.loads;
     execute_fails := healthy_db;
     DB_TABLE_NAME := Some "uploads" |}.

(** A signer that fails on its first [k] calls and answers like
    [sign_all] afterwards. *)
Definition sign_from (k : nat) (n : nat) (key : pyval) : option string :=
  if (n <? k)%nat then None else sign_all n key.

(** [env1] with a signer that fails twice. *)
Definition env_signer_fails_twice : Env :=
  make_env (fun _ => true) verify_prefix (sign_from 2) healthy_db.

(** [env1] on a schema without the [s3_result_paths] column. *)
Definition env_no_paths_column : Env :=
  make_env (fun _ => true) verify_prefix sign_all no_paths_column.

(** A registry in which connection 7 of user [U1] is registered for
    [J1]. *)
Definition registry1 : gmap string Registry.Registration :=
  Registry.connect "J1" 7 "U1" ∅.

Definition completed_row (path : option string) (paths : pyval) : Row :=
  {| user_id := Some "U1"; processing_status := "COMPLETED";
     s3_result_path := path; s3_result_paths := paths |}.

(** [J1] completed with the list [a, b] stored as JSON. *)
Definition table_json_list : gmap string Row :=
  {[ "J1" := completed_row (Some "a") (VStr (PyJson.dumps ["a"; "b"])) ]}.

(** [J1] completed with a list field that is not JSON. *)
Definition table_not_json : gmap string Row :=
  {[ "J1" := completed_row (Some "a") (VStr "out/J1.zip") ]}.

(** [J1] completed with the JSON number 5 in the list field. *)
Definition table_json_number : gmap string Row :=
  {[ "J1" := completed_row (Some "a") (VStr "5") ]}.

(** [J1] completed with an empty string in the list field. *)
Definition table_empty_string : gmap string Row :=
  {[ "J1" := completed_row (Some "k") (VStr EmptyString) ]}.

(** ** Functions the properties are stated with *)

(** What the signer answers to the calls number [n], [n+1], ... when
    they ask for [keys] in order. *)
Fixpoint presign_answers (E : Env) (n : nat) (keys : list pyval)
    : list (option string) :=
  match keys with
  | [] => []
  | key :: rest =>
      create_presigned_get_url E n key :: presign_answers E (S n) rest
  end.

(** The URLs among those answers, in order. *)
Definition presigned (E : Env) (n : nat) (keys : list pyval) : list string :=
  omap id (presign_answers E n keys).

(** The message of the webhook response for each outcome of the push. *)
Definition push_message (o : outcome bool) : string :=
  match o with
  | Returns true => "Result pushed successfully."
  | Returns false | Raises => "Result URL(s) generated."
  end.

(** Effects that touch the database only. *)
Definition db_only {E : Env} {A} (m : M (State E) A) : Prop :=
  forall st,
    s3_log (m st).2 = s3_log st /\ manager (m st).2 = manager st
    /\ manager_log (m st).2 = manager_log st /\ ws_log (m st).2 = ws_log st
    /\ temp_id (m st).2 = temp_id st.

(** The state after [keys] have been handed to the signer. *)
Definition log_presign {E : Env} (keys : list pyval) (st : State E) : State E :=
  {| table := table st; sql_log := sql_log st; s3_log := s3_log st ++ keys;
     manager := manager st; manager_log := manager_log st;
     ws_log := ws_log st; temp_id := temp_id st |}.

(** The state after one call to [manager.send_result_to_client]. *)
Definition log_push {E : Env} (job_id : string) (urls : list string)
    (st : State E) : State E :=
  {| table := table st; sql_log := sql_log st; s3_log := s3_log st;
     manager := (manager_send_result_to_client E job_id urls (manager st)).2;
     manager_log := manager_log st ++ [CallSendResult job_id urls];
     ws_log := ws_log st; temp_id := temp_id st |}.

(** The locations [handle_webhook] asks URLs for, as the signer sees
    them. *)
Definition webhook_keys (request : WebhookRequest) : list pyval :=
  VStr <$> all_keys_of
             (the_str (py_or (data_s3_result_path request)
                             (data_s3_result_key request)))
             (data_s3_result_paths request).

(** A callback that passes the checks of steps 0 and 1. *)
Definition accepted (request : WebhookRequest) : Prop :=
  signature_ok request = true
  /\ opt_truthy (data_job_id request) = true
  /\ opt_truthy (py_or (data_s3_result_path request)
                       (data_s3_result_key request)) = true.

(** The state after the server has rejected, respectively carried out,
    the statement [q]. *)
Definition rejected {E : Env} (q : Sql) (st : State E) : State E :=
  {| table := table st; sql_log := sql_log st ++ [q]; s3_log := s3_log st;
     manager := manager st; manager_log := manager_log st;
     ws_log := ws_log st; temp_id := temp_id st |}.

Definition executed {E : Env} (q : Sql) (st : State E) : State E :=
  {| table := run_update q (table st); sql_log := sql_log st ++ [q];
     s3_log := s3_log st; manager := manager st;
     manager_log := manager_log st; ws_log := ws_log st;
     temp_id := temp_id st |}.

(** Two states with the same persisted rows and the same position in
    the histories of the database and of the signer; the registry, the
    manager's log and the websocket may differ. *)
Definition agree {E : Env} (st1 st2 : State E) : Prop :=
  table st1 = table st2 /\ sql_log st1 = sql_log st2 /\ s3_log st1 = s3_log st2.

(** Computations whose result cannot tell two such states apart. *)
Definition registry_blind {E : Env} {A} (m : M (State E) A) : Prop :=
  forall st1 st2,
    agree st1 st2 -> (m st1).1 = (m st2).1 /\ agree (m st1).2 (m st2).2.

(** *** The status query in the words of the specification (4.4)

    "If status is COMPLETED, reconstruct the location list (prefer the
    richer list field, fall back to the single primary field, skip
    URL-generation failures per-location, omit the whole result-URL set
    if none could be generated) and return status plus the URL list plus
    the first URL as a singular field. For any other status, return
    status with no URLs."

    [sign] turns a list of locations into the URLs of those the
    generator did not fail on. The result is the pair of the singular
    field and the URL set. *)
Definition status_query_spec (sign : list pyval -> list string)
    (status : string) (richer : option (list pyval)) (primary : option pyval)
    : option string * option (list string) :=
  if String.eqb status "COMPLETED" then
    let locations :=
      match richer, primary with
      | Some l, _ => l
      | None, Some k => [k]
      | None, None => []
      end in
    let urls := sign locations in
    (head urls, if is_nil urls then None else Some urls)
  else (None, None).

(** The richer list field of a record, when it is present: the stored
    list, the list a stored string decodes to, or the stored string
    itself as the one location when it does not decode. *)
Definition richer_of (E : Env) (rec : UploadRecord) : option (list pyval) :=
  match rec_s3_result_paths rec with
  | VStr s =>
      if str_truthy s then
        match json_loads E s with
        | Some (VList l) => Some l
        | None => Some [VStr s]
        | Some _ => None
        end
      else None
  | VList l => if is_nil l then None else Some l
  | _ => None
  end.

Definition primary_of (rec : UploadRecord) : option pyval :=
  if opt_truthy (rec_s3_result_path rec)
  then Some (VStr (the_str (rec_s3_result_path rec)))
  else None.

(** The list field holds nothing ([NULL] or an empty string), a list, or
    a string that is either not JSON or the JSON of a list. *)
Definition stored_as_list (E : Env) (rec : UploadRecord) : Prop :=
  match rec_s3_result_paths rec with
  | VNone | VList _ => True
  | VStr s =>
      if str_truthy s then
        match json_loads E s with
        | None | Some (VList _) => True
        | Some _ => False
        end
      else True
  | _ => False
  end.

(** The state of the handshake once the connection is accepted and
    [temp_id] holds the job of the registration message. *)
Definition opened {E : Env} (job_id : string) (st : State E) : State E :=
  {| table := table st; sql_log := sql_log st; s3_log := s3_log st;
     manager := manager st; manager_log := manager_log st;
     ws_log := ws_log st ++ [WsAccept]; temp_id := Some job_id |}.

(** ** Functions the further properties are stated with *)

(** A computation that only moves the state along the relation [R]. *)
Definition preserves {E : Env} {A} (R : relation (State E))
    (m : M (State E) A) : Prop :=
  forall st, R st (m st).2.

(** The owner column of the table. *)
Definition owners (t : gmap string Row) : gmap string (option string) :=
  user_id <$> t.

(** [q] is an [UPDATE] of the row [job] that sets [processing_status] to
    [status]. *)
Definition updates (job status : string) (q : Sql) : Prop :=
  match q with
  | UpdateStatusPathPaths s _ _ j | UpdateStatusPaths s _ j
  | UpdateStatusPath s _ j | UpdateStatus s j => s = status /\ j = job
  | SelectRecordWithPaths _ | SelectRecord _ | SelectOwner _ => False
  end.

(** [q] is a [SELECT] on the row [job]. *)
Definition selects (job : string) (q : Sql) : Prop :=
  match q with
  | SelectRecordWithPaths j | SelectRecord j | SelectOwner j => j = job
  | _ => False
  end.

(** The statement names the [s3_result_paths] column. *)
Definition mentions_paths (q : Sql) : bool :=
  match q with
  | UpdateStatusPathPaths _ _ _ _ | UpdateStatusPaths _ _ _
  | SelectRecordWithPaths _ => true
  | _ => false
  end.

(** The rows keep their owners, and no row appears or disappears. *)
Definition same_owners {E : Env} (st st' : State E) : Prop :=
  owners (table st') = owners (table st).

(** Every row but the one of [job] is as it was. *)
Definition same_other_rows {E : Env} (job : string) (st st' : State E) : Prop :=
  forall j, j <> job -> table st' !! j = table st !! j.

(** The statements sent between [st] and [st'] all satisfy [P]. *)
Definition sent_only {E : Env} (P : Sql -> Prop) (st st' : State E) : Prop :=
  exists sent, sql_log st' = sql_log st ++ sent /\ Forall P sent.

(** The job a client asks to be registered for: its first frame is an
    object whose action is ["register"] and whose job id is not empty. *)
Definition valid_register (frames : list Frame) : option string :=
  match frames with
  | FrameObject action job :: _ =>
      if bool_decide (action = Some "register") && opt_truthy job
      then Some (the_str job) else None
  | _ => None
  end.

(** The calls a handshake for [job] on connection [c] can make to the
    manager: none, a lone [disconnect], or [connect] followed by
    [disconnect]. *)
Definition handshake_calls (job : string) (c : nat) (calls : list ManagerCall)
    : Prop :=
  calls = [] \/ calls = [CallDisconnect job]
  \/ exists user, calls = [CallConnect job c user; CallDisconnect job].

(** The places a token is looked for, in the order the handshake tries
    them: the first item of the subprotocol header, the [token] query
    parameter, the [id_token] cookie and the [access_token] cookie. *)
Definition token_candidates (websocket : WebSocket) : list (option string) :=
  [ (fun proto => py_strip (py_split_comma_0 proto))
      <$> header_sec_websocket_protocol websocket;
    query_token websocket;
    cookie_id_token websocket;
    cookie_access_token websocket ].

(** The first candidate that is a non-empty string. *)
Fixpoint first_nonempty (candidates : list (option string)) : option string :=
  match candidates with
  | [] => None
  | c :: rest => if opt_truthy c then c else first_nonempty rest
  end.

(** * Properties *)

(** ** The model on the examples of the specification *)

Example dumps_two :
  PyJson.dumps ["a"; "b"]
  = "[" +:+ String PyJson.dquote ("a" +:+ String PyJson.dquote (", " +:+ String PyJson.dquote
      ("b" +:+ String PyJson.dquote "]"))).
Proof. reflexivity. Qed.

Example loads_dumps_two :
  PyJson.loads (PyJson.dumps ["a"; "b"]) = Some (VList [VStr "a"; VStr "b"]).
Proof. vm_compute. reflexivity. Qed.

Example loads_empty : PyJson.loads EmptyString = None.
Proof. reflexivity. Qed.

Example loads_not_json : PyJson.loads "out/J1.zip" = None.
Proof. vm_compute. reflexivity. Qed.

Example loads_numbers :
  PyJson.loads "[1, -2.50, null, 0, true, 0.0]"
  = Some (VList [VInt 1; VFloat true; VNone; VInt 0; VBool true; VFloat false]).
Proof. vm_compute. reflexivity. Qed.

Example loads_dumps_escapes :
  let s := String PyJson.dquote (String PyJson.backslash (String (ascii_of_nat 10) "x")) in
  PyJson.loads (PyJson.dumps [s; "k"]) = Some (VList [VStr s; VStr "k"]).
Proof. vm_compute. reflexivity. Qed.

Example webhook_single_path :
  (handle_webhook env1 (callback (Some "J1") (Some "out/J1.zip") None) state1).1
  = Ok {| message := "Result URL(s) generated.";
          result_urls := ["https://s3/out/J1.zip"] |}.
Proof. vm_compute. reflexivity. Qed.

Example webhook_then_status :
  let s1 := (handle_webhook env1
               (callback (Some "J1") (Some "out/J1.zip") None) state1).2 in
  (get_result_status env1 "J1" s1).1
  = Ok {| resp_job_id := "J1"; resp_status := "COMPLETED";
          resp_result_url := Some "https://s3/out/J1.zip";
          resp_result_urls := Some ["https://s3/out/J1.zip"] |}.
Proof. vm_compute. reflexivity. Qed.

Example status_pending :
  (get_result_status env1 "J1" state1).1
  = Ok {| resp_job_id := "J1"; resp_status := "PENDING";
          resp_result_url := None; resp_result_urls := None |}.
Proof. vm_compute. reflexivity. Qed.

Example status_unknown_job :
  (get_result_status env1 "J9" state1).1
  = Raise (HTTPException 404 "job not found").
Proof. vm_compute. reflexivity. Qed.

Example register_then_disconnect :
  let s1 := (websocket_preconnect env1 (websocket1 (Some "tok-U1, x"))
               [FrameObject (Some "register") (Some "J1")] state1).2 in
  ws_log s1 = [WsAccept; WsSendJson (RegisteredPayload "J1")]
  /\ manager_log s1 = [CallConnect "J1" 7 "U1"; CallDisconnect "J1"]
  /\ manager s1 = ∅.
Proof. vm_compute. auto. Qed.

(** ** Running the primitives *)

Section Facts.

Context (E : Env).

Local Open Scope py_scope.

Lemma db_only_ret {A} (a : A) : db_only (E:=E) (ret a).
Proof. intros st. cbn. auto. Qed.

Lemma db_only_raise {A} (e : exn) : db_only (E:=E) (A:=A) (raise e).
Proof. intros st. cbn. auto. Qed.

Lemma db_only_execute (q : Sql) : db_only (execute E q).
Proof.
  intros st. unfold execute.
  destruct (execute_fails E (length (sql_log st)) q); cbn; auto.
Qed.

Lemma db_only_bind {A B} (m : M (State E) A) (k : A -> M (State E) B) :
  db_only m -> (forall a, db_only (k a)) -> db_only (bind m k).
Proof.
  intros Hm Hk st. unfold bind. specialize (Hm st).
  destruct (m st) as [[a | e] st']; cbn in *.
  - specialize (Hk a st'). intuition congruence.
  - exact Hm.
Qed.

Lemma db_only_try {A} (m : M (State E) A) (h : exn -> M (State E) A) :
  db_only m -> (forall e, db_only (h e)) -> db_only (try_catch m h).
Proof.
  intros Hm Hh st. unfold try_catch. specialize (Hm st).
  destruct (m st) as [[a | e] st']; cbn in *.
  - exact Hm.
  - specialize (Hh e st'). intuition congruence.
Qed.

Lemma db_only_if {A} (b : bool) (m1 m2 : M (State E) A) :
  db_only m1 -> db_only m2 -> db_only (if b then m1 else m2).
Proof. destruct b; auto. Qed.

Create HintDb db_only discriminated.
#[local] Hint Resolve db_only_ret db_only_raise db_only_execute
  db_only_bind db_only_try db_only_if : db_only.

Ltac db_only_tac :=
  repeat
    lazymatch goal with
    | |- db_only (if _ then _ else _) => apply db_only_if
    | |- db_only (match ?x with _ => _ end) => destruct x
    | |- db_only (bind _ _) => apply db_only_bind
    | |- db_only (try_catch _ _) => apply db_only_try
    | |- db_only (ret _) => apply db_only_ret
    | |- db_only (raise _) => apply db_only_raise
    | |- db_only (execute _ _) => apply db_only_execute
    | |- forall _, _ => intro
    end.

Lemma db_only_update_upload_status job status path :
  db_only (update_upload_status E job status path).
Proof. unfold update_upload_status, not_configured. db_only_tac. Qed.

Lemma db_only_update_upload_status_with_paths job status path paths :
  db_only (update_upload_status_with_paths E job status path paths).
Proof. unfold update_upload_status_with_paths, not_configured. db_only_tac. Qed.

Lemma db_only_get_upload_record job : db_only (get_upload_record E job).
Proof. unfold get_upload_record, not_configured. db_only_tac. Qed.

Lemma db_only_get_job_owner job : db_only (get_job_owner E job).
Proof. unfold get_job_owner, not_configured. db_only_tac. Qed.

#[local] Hint Resolve db_only_update_upload_status
  db_only_update_upload_status_with_paths : db_only.

Lemma db_only_persist_completed request job key :
  db_only (persist_completed E request job key).
Proof.
  unfold persist_completed.
  apply db_only_try; [apply db_only_try |]; intros; auto with db_only.
Qed.

(** ** Running the steps of the webhook *)

Lemma log_presign_nil (st : State E) : log_presign [] st = st.
Proof. destruct st. unfold log_presign. cbn. by rewrite app_nil_r. Qed.

Lemma log_presign_app (ks1 ks2 : list pyval) (st : State E) :
  log_presign ks2 (log_presign ks1 st) = log_presign (ks1 ++ ks2) st.
Proof. unfold log_presign. cbn. by rewrite app_assoc. Qed.

Lemma presign_run (key : pyval) (st : State E) :
  presign E key st
  = (match create_presigned_get_url E (length (s3_log st)) key with
     | Some url => Ok url
     | None => Raise (PyException "botocore ClientError")
     end, log_presign [key] st).
Proof.
  unfold presign, log_presign.
  by destruct (create_presigned_get_url E (length (s3_log st)) key).
Qed.

Lemma presign_each_run (keys : list pyval) :
  forall (acc : list string) (st : State E),
    presign_each E keys acc st
    = (Ok (acc ++ presigned E (length (s3_log st)) keys), log_presign keys st).
Proof.
  induction keys as [| key rest IH]; intros acc st.
  - cbn. by rewrite app_nil_r, log_presign_nil.
  - cbn [presign_each]. unfold bind, try_catch.
    rewrite presign_run.
    assert (Hlen : length (s3_log (log_presign [key] st)) = S (length (s3_log st))).
    { cbn. rewrite length_app. cbn. lia. }
    unfold presigned. cbn [presign_answers omap].
    destruct (create_presigned_get_url E (length (s3_log st)) key) as [url |];
      cbn [ret]; rewrite IH, Hlen, log_presign_app; cbn.
    + by rewrite <- app_assoc.
    + done.
Qed.

Lemma persist_completed_ok request job key (st : State E) :
  (persist_completed E request job key st).1 = Ok tt.
Proof.
  unfold persist_completed, try_catch at 1.
  match goal with |- context [match ?m st with _ => _ end] => destruct (m st) as [[[] | e] st'] end;
    reflexivity.
Qed.

Lemma generate_urls_run request key (st : State E) :
  let keys := VStr <$> all_keys_of key (data_s3_result_paths request) in
  let n := length (s3_log st) in
  generate_urls E request key st
  = if is_nil (presigned E n keys) then
      (match create_presigned_get_url E (n + length keys)%nat (VStr key) with
       | Some url => Ok [url]
       | None =>
           Raise (HTTPException 500 "Failed to generate presigned result URL(s)")
       end, log_presign (keys ++ [VStr key]) st)
    else (Ok (presigned E n keys), log_presign keys st).
Proof.
  intros keys n. unfold generate_urls, bind at 1. fold keys.
  rewrite presign_each_run. cbn [app]. fold n.
  destruct (presigned E n keys) as [| u us] eqn:Hurls; cbn [is_nil].
  - unfold try_catch, bind. rewrite presign_run, log_presign_app.
    replace (length (s3_log (log_presign keys st))) with (n + length keys)%nat
      by (cbn; rewrite length_app; reflexivity).
    by destruct (create_presigned_get_url E (n + length keys) (VStr key)).
  - reflexivity.
Qed.

Lemma push_and_respond_run job urls (st : State E) :
  push_and_respond E job urls st
  = (Ok {| message :=
             push_message (manager_send_result_to_client E job urls (manager st)).1;
           result_urls := urls |},
     log_push job urls st).
Proof.
  unfold push_and_respond, bind, try_catch, send_result_to_client, log_push.
  destruct (manager_send_result_to_client E job urls (manager st)) as [[[] |] reg];
    reflexivity.
Qed.

(** An accepted callback is the three steps in a row. *)
Lemma handle_webhook_steps request (st : State E) :
  accepted request ->
  let job := the_str (data_job_id request) in
  let key := the_str (py_or (data_s3_result_path request)
                            (data_s3_result_key request)) in
  handle_webhook E request st
  = match generate_urls E request key (persist_completed E request job key st).2 with
    | (Ok urls, st1) => push_and_respond E job urls st1
    | (Raise e, st1) => (Raise e, st1)
    end.
Proof.
  intros (Hsig & Hjob & Hkey) job key.
  unfold handle_webhook, webhook_until_push, verify_runpod_signature.
  rewrite Hsig, Hjob, Hkey. cbn [negb orb].
  unfold bind. cbn [ret]. fold job key.
  pose proof (persist_completed_ok request job key st) as Hok.
  destruct (persist_completed E request job key st) as [r st0].
  cbn in Hok. subst r. cbn [snd].
  destruct (generate_urls E request key st0) as [[urls | e] st1]; reflexivity.
Qed.

Lemma persist_completed_frame request job key (st : State E) :
  s3_log (persist_completed E request job key st).2 = s3_log st
  /\ manager (persist_completed E request job key st).2 = manager st
  /\ manager_log (persist_completed E request job key st).2 = manager_log st.
Proof.
  destruct (db_only_persist_completed request job key st) as (? & ? & ? & _).
  auto.
Qed.

(** The whole of an accepted callback, in terms of what the signer and
    the manager answer. *)
Lemma handle_webhook_run request (st : State E) :
  accepted request ->
  let job := the_str (data_job_id request) in
  let key := the_str (py_or (data_s3_result_path request)
                            (data_s3_result_key request)) in
  let keys := webhook_keys request in
  let n := length (s3_log st) in
  let st0 := (persist_completed E request job key st).2 in
  let respond urls st1 :=
    (Ok {| message :=
             push_message (manager_send_result_to_client E job urls (manager st)).1;
           result_urls := urls |},
     log_push job urls st1) in
  handle_webhook E request st
  = if is_nil (presigned E n keys) then
      match create_presigned_get_url E (n + length keys)%nat (VStr key) with
      | Some url => respond [url] (log_presign (keys ++ [VStr key]) st0)
      | None =>
          (Raise (HTTPException 500 "Failed to generate presigned result URL(s)"),
           log_presign (keys ++ [VStr key]) st0)
      end
    else respond (presigned E n keys) (log_presign keys st0).
Proof.
  intros Hacc job key keys n st0 respond.
  rewrite (handle_webhook_steps request st Hacc). fold job key st0.
  destruct (persist_completed_frame request job key st) as (Hs3 & Hman & _).
  fold job key st0 in Hs3, Hman.
  rewrite generate_urls_run. rewrite Hs3. fold key keys n.
  change (VStr <$> all_keys_of key (data_s3_result_paths request)) with keys.
  unfold respond.
  destruct (is_nil (presigned E n keys)).
  - destruct (create_presigned_get_url E (n + length keys) (VStr key)); [| done].
    rewrite push_and_respond_run. cbn [manager log_presign]. by rewrite Hman.
  - rewrite push_and_respond_run. cbn [manager log_presign]. by rewrite Hman.
Qed.

(** A callback that is not accepted is answered 401 or 400 and nothing
    else happens. *)
Lemma handle_webhook_rejected request (st : State E) :
  ~ accepted request ->
  handle_webhook E request st
  = (Raise (if signature_ok request
            then HTTPException 400 "job_id and s3_result_path required"
            else HTTPException 401 "invalid signature"), st).
Proof.
  intros Hrej. unfold handle_webhook, webhook_until_push, verify_runpod_signature.
  destruct (signature_ok request) eqn:Hsig; [| reflexivity].
  cbn. unfold bind at 1. cbn.
  destruct (opt_truthy (data_job_id request)) eqn:Hjob; [| reflexivity].
  destruct (opt_truthy (py_or (data_s3_result_path request)
                              (data_s3_result_key request))) eqn:Hkey;
    [| reflexivity].
  destruct Hrej. by repeat split.
Qed.

Lemma webhook_until_push_ok request (st st1 : State E) job urls :
  webhook_until_push E request st = (Ok (job, urls), st1) ->
  let job0 := the_str (data_job_id request) in
  let key := the_str (py_or (data_s3_result_path request)
                            (data_s3_result_key request)) in
  accepted request
  /\ job = job0
  /\ generate_urls E request key (persist_completed E request job0 key st).2
     = (Ok urls, st1).
Proof.
  intros Hreach job0 key. revert Hreach.
  unfold webhook_until_push, verify_runpod_signature, accepted.
  destruct (signature_ok request); [| discriminate].
  unfold bind at 1. cbn [ret].
  destruct (opt_truthy (data_job_id request)); [| discriminate].
  fold key. destruct (opt_truthy (py_or _ _)); [| discriminate].
  cbn [negb orb]. unfold bind. fold job0.
  pose proof (persist_completed_ok request job0 key st) as Hok.
  destruct (persist_completed E request job0 key st) as [r st0].
  cbn in Hok. subst r. cbn [snd].
  destruct (generate_urls E request key st0) as [[urls0 | e] st2];
    [| discriminate].
  cbn [ret]. by intros [= <- <- <-].
Qed.

Lemma generate_urls_nonempty request key (st st1 : State E) urls :
  generate_urls E request key st = (Ok urls, st1) -> urls <> [].
Proof.
  rewrite generate_urls_run.
  destruct (presigned E _ _) as [| u us] eqn:Hurls; cbn [is_nil].
  - destruct (create_presigned_get_url E _ (VStr key)); intros [= <- _]; done.
  - intros [= <- _]. done.
Qed.

(** ** The completion webhook *)

(** C1. Once the callback has reached the push with the generated URLs,
    whatever [send_result_to_client] does (return true, return false,
    raise) the handler returns, so the route answers 202, and the body
    carries all the generated URLs; an exception counts as not
    delivered, and only the message tells the two cases apart. *)
Theorem push_outcome_only_changes_message
    (request : WebhookRequest) (st st1 : State E) (job : string)
    (urls : list string) :
  webhook_until_push E request st = (Ok (job, urls), st1) ->
  let pushed := (manager_send_result_to_client E job urls (manager st1)).1 in
  (handle_webhook E request st).1
  = Ok {| message := push_message pushed; result_urls := urls |}
  /\ http_status 202 (handle_webhook E request st).1 = 202
  /\ manager_log (handle_webhook E request st).2
     = manager_log st1 ++ [CallSendResult job urls]
  /\ urls <> []
  /\ (pushed <> Returns true -> push_message pushed = "Result URL(s) generated.")
  /\ (pushed = Returns true -> push_message pushed = "Result pushed successfully.").
Proof.
  intros Hreach pushed.
  assert (Hrun : handle_webhook E request st
                 = (Ok {| message := push_message pushed; result_urls := urls |},
                    log_push job urls st1)).
  { unfold handle_webhook, bind. rewrite Hreach. cbn [fst snd].
    by rewrite push_and_respond_run. }
  rewrite Hrun. cbn [fst snd http_status log_push manager_log].
  repeat split.
  - apply webhook_until_push_ok in Hreach as (_ & _ & Hgen).
    by apply generate_urls_nonempty in Hgen.
  - destruct pushed as [[] |]; [congruence | reflexivity | reflexivity].
  - by intros ->.
Qed.

(** C9. For an accepted callback every normalized location is handed to
    the signer once, in order, and the locations it fails on are
    skipped. If that leaves no URL, the signer is asked exactly once
    more, for the primary location; the callback is answered 500 only
    when this last call fails too, and otherwise it succeeds with the
    URLs generated. *)
Theorem webhook_url_generation (request : WebhookRequest) (st : State E) :
  accepted request ->
  let key := the_str (py_or (data_s3_result_path request)
                            (data_s3_result_key request)) in
  let keys := webhook_keys request in
  let n := length (s3_log st) in
  let r := handle_webhook E request st in
  (presigned E n keys <> [] ->
     s3_log r.2 = s3_log st ++ keys
     /\ (exists msg, r.1 = Ok {| message := msg;
                                 result_urls := presigned E n keys |})
     /\ http_status 202 r.1 = 202)
  /\ (presigned E n keys = [] ->
      s3_log r.2 = s3_log st ++ keys ++ [VStr key]
      /\ match create_presigned_get_url E (n + length keys)%nat (VStr key) with
         | Some url =>
             (exists msg, r.1 = Ok {| message := msg; result_urls := [url] |})
             /\ http_status 202 r.1 = 202
         | None =>
             r.1 = Raise (HTTPException 500
                            "Failed to generate presigned result URL(s)")
             /\ http_status 202 r.1 = 500
         end).
Proof.
  intros Hacc key keys n r. subst r.
  rewrite (handle_webhook_run request st Hacc). fold key keys n.
  destruct (persist_completed_frame request (the_str (data_job_id request)) key st)
    as (Hs3 & _ & _).
  split; intros Hurls.
  - destruct (presigned E n keys) as [| u us] eqn:Heq; [done |].
    cbn [is_nil fst snd log_push log_presign s3_log http_status].
    rewrite Hs3. eauto.
  - rewrite Hurls. cbn [is_nil].
    destruct (create_presigned_get_url E (n + length keys) (VStr key)) as [url |];
      cbn [fst snd log_push log_presign s3_log http_status];
      rewrite Hs3, app_assoc; eauto.
Qed.

(** C4, as the code has it. A verified callback is answered 400 exactly
    when [job_id] is missing or empty, or neither [s3_result_path] nor
    [s3_result_key] holds a location; [s3_result_paths] plays no part in
    the check and does not stand in for the single location. *)
Theorem webhook_400_iff_job_or_single_location_missing
    (request : WebhookRequest) (st : State E) :
  signature_ok request = true ->
  http_status 202 (handle_webhook E request st).1 = 400
  <-> (opt_truthy (data_job_id request) = false
       \/ opt_truthy (py_or (data_s3_result_path request)
                            (data_s3_result_key request)) = false).
Proof.
  intros Hsig.
  destruct (opt_truthy (data_job_id request)) eqn:Hjob;
    [destruct (opt_truthy (py_or (data_s3_result_path request)
                                 (data_s3_result_key request))) eqn:Hkey |].
  - assert (Hacc : accepted request) by (by repeat split).
    rewrite (handle_webhook_run request st Hacc).
    split; [| intros [? | ?]; discriminate].
    destruct (is_nil _); [destruct (create_presigned_get_url E _ _) |];
      cbn; discriminate.
  - rewrite handle_webhook_rejected, Hsig; [cbn; tauto |].
    intros (_ & _ & H). congruence.
  - rewrite handle_webhook_rejected, Hsig; [cbn; tauto |].
    intros (_ & H & _). congruence.
Qed.

Lemma execute_run (q : Sql) (st : State E) :
  execute E q st
  = if execute_fails E (length (sql_log st)) q
    then (Raise (PyException "mysql.connector.Error"), rejected q st)
    else (Ok (fetchone q (table st)), executed q st).
Proof. reflexivity. Qed.

Lemma length_sql_log_rejected (q : Sql) (st : State E) :
  length (sql_log (rejected q st)) = S (length (sql_log st)).
Proof. cbn. rewrite length_app. cbn. lia. Qed.

(** What the persistence step leaves behind, by the answer of the server
    to its first statement [q]: the richer write when the callback has a
    list, the write of status and primary location otherwise. *)
Lemma persist_completed_run (request : WebhookRequest) (job key : string)
    (st : State E) (q : Sql) :
  table_configured E = true ->
  let paths := data_s3_result_paths request in
  let n := length (sql_log st) in
  let minimal := UpdateStatusPath "COMPLETED" (Some key) job in
  q = (if list_truthy paths
       then UpdateStatusPathPaths "COMPLETED" key
              (json_dumps E (default [] paths)) job
       else minimal) ->
  (execute_fails E n q = false ->
     (persist_completed E request job key st).2 = executed q st)
  /\ (execute_fails E n q = true -> execute_fails E (S n) minimal = false ->
      (persist_completed E request job key st).2 = executed minimal (rejected q st)).
Proof.
  intros Hconf paths n minimal Hq.
  unfold persist_completed, update_upload_status_with_paths.
  rewrite Hconf. cbn [negb]. fold paths.
  assert (Hfirst :
            match (if list_truthy paths
                   then Some (json_dumps E (default [] paths)) else None),
                  Some key with
            | Some ps, Some p => execute E (UpdateStatusPathPaths "COMPLETED" p ps job)
            | Some ps, None => execute E (UpdateStatusPaths "COMPLETED" ps job)
            | None, Some p => execute E (UpdateStatusPath "COMPLETED" (Some p) job)
            | None, None => execute E (UpdateStatus "COMPLETED" job)
            end = execute E q).
  { subst q. by destruct (list_truthy paths). }
  rewrite Hfirst. unfold try_catch, bind. rewrite execute_run. fold n.
  split.
  - intros ->. reflexivity.
  - intros -> Hmin. rewrite execute_run, length_sql_log_rejected. fold n minimal.
    rewrite Hmin. reflexivity.
Qed.

(** C2, as the code has it. For an accepted callback, with the table
    configured, the first statement of the persistence step is the
    richer write when the callback carries a list; when the server
    rejects it, the next statement is the write of status and primary
    location (which is also the first one when there is no list). No
    outcome of these writes fails the request: the step never raises,
    and the callback is answered 202 as soon as a URL is generated,
    whatever the database did. *)
Theorem persistence_falls_back_and_never_fails_callback
    (request : WebhookRequest) (st : State E) :
  accepted request ->
  let job := the_str (data_job_id request) in
  let key := the_str (py_or (data_s3_result_path request)
                            (data_s3_result_key request)) in
  let paths := data_s3_result_paths request in
  let n := length (sql_log st) in
  let rich :=
    UpdateStatusPathPaths "COMPLETED" key (json_dumps E (default [] paths)) job in
  let minimal := UpdateStatusPath "COMPLETED" (Some key) job in
  let persist := persist_completed E request job key st in
  (table_configured E = true -> list_truthy paths = true ->
     (execute_fails E n rich = false -> persist.2 = executed rich st)
     /\ (execute_fails E n rich = true -> execute_fails E (S n) minimal = false ->
         persist.2 = executed minimal (rejected rich st)))
  /\ (table_configured E = true -> list_truthy paths = false ->
      execute_fails E n minimal = false ->
      persist.2 = executed minimal st)
  /\ persist.1 = Ok tt
  /\ (presigned E (length (s3_log st)) (webhook_keys request) <> [] ->
      http_status 202 (handle_webhook E request st).1 = 202).
Proof.
  intros Hacc job key paths n rich minimal persist.
  split; [intros Hconf Hlist; split | split; [| split]].
  - intros Hf. apply (persist_completed_run request job key st rich Hconf);
      [by fold paths; rewrite Hlist | done].
  - intros Hf1 Hf2. apply (persist_completed_run request job key st rich Hconf);
      [by fold paths; rewrite Hlist | done | done].
  - intros Hconf Hno Hf.
    apply (persist_completed_run request job key st minimal Hconf);
      [by fold paths; rewrite Hno | done].
  - apply persist_completed_ok.
  - intros Hurls. rewrite (handle_webhook_run request st Hacc).
    destruct (presigned E _ _) eqn:Heq; [done | reflexivity].
Qed.

(** ** The status query *)

Lemma get_upload_record_frame job (st : State E) :
  s3_log (get_upload_record E job st).2 = s3_log st.
Proof. by destruct (db_only_get_upload_record job st) as (? & _). Qed.

Lemma get_result_status_run job (st : State E) :
  str_truthy job = true ->
  get_result_status E job st
  = match get_upload_record E job st with
    | (Raise _, st0) => (Raise (HTTPException 500 "internal error"), st0)
    | (Ok None, st0) => (Raise (HTTPException 404 "job not found"), st0)
    | (Ok (Some rec), st0) =>
        let none :=
          (Ok {| resp_job_id := job; resp_status := rec_status rec;
                 resp_result_url := None; resp_result_urls := None |}, st0) in
        if String.eqb (rec_status rec) "COMPLETED" then
          let keys := status_keys E (rec_s3_result_path rec)
                        (rec_s3_result_paths rec) in
          if truthy keys then
            match py_iter keys with
            | None =>
                (Raise (PyException "TypeError: object is not iterable"), st0)
            | Some ks =>
                let urls := presigned E (length (s3_log st)) ks in
                (Ok {| resp_job_id := job; resp_status := rec_status rec;
                       resp_result_url := head urls;
                       resp_result_urls :=
                         if is_nil urls then None else Some urls |},
                 log_presign ks st0)
            end
          else none
        else none
    end.
Proof.
  intros Hjob. unfold get_result_status. rewrite Hjob. cbn [negb].
  unfold bind at 1, try_catch.
  pose proof (get_upload_record_frame job st) as Hs3.
  destruct (get_upload_record E job st) as [[[rec |] | e] st0]; try reflexivity.
  cbn in Hs3. cbn [raise].
  destruct (String.eqb (rec_status rec) "COMPLETED"); [| reflexivity].
  cbn zeta.
  destruct (truthy (status_keys E _ _)); [| reflexivity].
  destruct (py_iter (status_keys E _ _)) as [ks |]; [| reflexivity].
  unfold bind. rewrite presign_each_run, Hs3. cbn [app].
  by destruct (presigned E (length (s3_log st)) ks).
Qed.

(** C7, as the code has it. The status query rebuilds the locations
    from the stored fields alone: for a COMPLETED record whose list
    field holds a list (or a string that is the JSON of a list, or not
    JSON at all) it prefers that field, falls back to the stored
    primary location when the field is absent, skips the locations the
    generator fails on, returns no URL set when none could be generated
    and repeats the first URL as [result_url]; for any other status it
    returns the status with both fields null. *)
Theorem status_query_refines_spec (job : string) (st : State E)
    (rec : UploadRecord) :
  str_truthy job = true ->
  (get_upload_record E job st).1 = Ok (Some rec) ->
  (stored_as_list E rec ->
   let spec :=
     status_query_spec (presigned E (length (s3_log st))) (rec_status rec)
       (richer_of E rec) (primary_of rec) in
   (get_result_status E job st).1
   = Ok {| resp_job_id := job; resp_status := rec_status rec;
           resp_result_url := spec.1; resp_result_urls := spec.2 |})
  /\ (rec_status rec <> "COMPLETED" ->
      (get_result_status E job st).1
      = Ok {| resp_job_id := job; resp_status := rec_status rec;
              resp_result_url := None; resp_result_urls := None |}).
Proof.
  intros Hjob Hrec. rewrite (get_result_status_run job st Hjob).
  destruct (get_upload_record E job st) as [r st0]. cbn in Hrec. subst r.
  unfold status_query_spec. split.
  - intros Hwf.
    destruct (String.eqb (rec_status rec) "COMPLETED"); [| reflexivity].
    unfold status_keys, richer_of, primary_of, stored_as_list in *.
    destruct (rec_s3_result_paths rec) as [| b | z | f | s | l | d];
      try contradiction; cbn [truthy].
    + destruct (opt_truthy (rec_s3_result_path rec)); reflexivity.
    + destruct (str_truthy s).
      * destruct (json_loads E s) as [[| b | z | f | s' | l | d] |];
          try contradiction; [destruct l |]; reflexivity.
      * destruct (opt_truthy (rec_s3_result_path rec)); reflexivity.
    + destruct l as [| k l]; cbn [is_nil negb]; [| reflexivity].
      destruct (opt_truthy (rec_s3_result_path rec)); reflexivity.
  - intros Hstatus.
    destruct (String.eqb_spec (rec_status rec) "COMPLETED"); [done | reflexivity].
Qed.

(** C10, as the code has it. A COMPLETED record whose list field is a
    non-empty string that does not decode as JSON is answered without an
    error: that whole string is handed to the generator as the one
    location, whatever the stored primary location is. *)
Theorem undecodable_paths_is_single_location (job : string) (st : State E)
    (rec : UploadRecord) (s : string) :
  str_truthy job = true ->
  (get_upload_record E job st).1 = Ok (Some rec) ->
  rec_status rec = "COMPLETED" ->
  rec_s3_result_paths rec = VStr s ->
  s <> EmptyString ->
  json_loads E s = None ->
  let r := get_result_status E job st in
  let urls := presigned E (length (s3_log st)) [VStr s] in
  s3_log r.2 = s3_log st ++ [VStr s]
  /\ r.1 = Ok {| resp_job_id := job; resp_status := "COMPLETED";
                 resp_result_url := head urls;
                 resp_result_urls := if is_nil urls then None else Some urls |}.
Proof.
  intros Hjob Hrec Hstatus Hpaths Hne Hjson r urls. subst r.
  rewrite (get_result_status_run job st Hjob).
  pose proof (get_upload_record_frame job st) as Hs3.
  destruct (get_upload_record E job st) as [r0 st0]. cbn in Hrec, Hs3. subst r0.
  rewrite Hstatus, Hpaths. cbn [String.eqb Ascii.eqb Bool.eqb].
  unfold status_keys. cbn [truthy]. unfold str_truthy.
  destruct (String.eqb_spec s EmptyString) as [-> | _]; [done |].
  cbn [negb]. rewrite Hjson. cbn [truthy is_nil negb py_iter fst snd].
  cbn [log_presign s3_log]. by rewrite Hs3.
Qed.

(** *** The status query does not look at the registry *)

Lemma agree_refl (st : State E) : agree st st.
Proof. by repeat split. Qed.

Lemma blind_ret {A} (a : A) : registry_blind (E:=E) (ret a).
Proof. intros st1 st2 H. by split. Qed.

Lemma blind_raise {A} (e : exn) : registry_blind (E:=E) (A:=A) (raise e).
Proof. intros st1 st2 H. by split. Qed.

Lemma blind_execute (q : Sql) : registry_blind (execute E q).
Proof.
  intros st1 st2 (Ht & Hq & Hs). rewrite !execute_run, Hq, Ht.
  destruct (execute_fails E (length (sql_log st2)) q); cbn;
    unfold agree; cbn; rewrite Ht, Hq, Hs; auto.
Qed.

Lemma blind_presign (key : pyval) : registry_blind (presign E key).
Proof.
  intros st1 st2 (Ht & Hq & Hs). rewrite !presign_run, Hs.
  unfold agree. cbn. by rewrite Ht, Hq, Hs.
Qed.

Lemma blind_bind {A B} (m : M (State E) A) (k : A -> M (State E) B) :
  registry_blind m -> (forall a, registry_blind (k a)) -> registry_blind (bind m k).
Proof.
  intros Hm Hk st1 st2 Hagree. unfold bind.
  destruct (Hm st1 st2 Hagree) as [Hres Hst].
  destruct (m st1) as [r1 st1'], (m st2) as [r2 st2']. cbn in Hres, Hst. subst r2.
  destruct r1 as [a | e]; [by apply Hk | by split].
Qed.

Lemma blind_try {A} (m : M (State E) A) (h : exn -> M (State E) A) :
  registry_blind m -> (forall e, registry_blind (h e)) ->
  registry_blind (try_catch m h).
Proof.
  intros Hm Hh st1 st2 Hagree. unfold try_catch.
  destruct (Hm st1 st2 Hagree) as [Hres Hst].
  destruct (m st1) as [r1 st1'], (m st2) as [r2 st2']. cbn in Hres, Hst. subst r2.
  destruct r1 as [a | e]; [by split | by apply Hh].
Qed.

Lemma blind_if {A} (b : bool) (m1 m2 : M (State E) A) :
  registry_blind m1 -> registry_blind m2 -> registry_blind (if b then m1 else m2).
Proof. by destruct b. Qed.

Lemma blind_presign_each (keys : list pyval) :
  forall acc, registry_blind (presign_each E keys acc).
Proof.
  induction keys as [| key rest IH]; intros acc; cbn [presign_each].
  - apply blind_ret.
  - apply blind_bind; [| apply IH].
    apply blind_try; [| intros; apply blind_ret].
    apply blind_bind; [apply blind_presign | intros; apply blind_ret].
Qed.

Ltac blind_tac :=
  repeat
    lazymatch goal with
    | |- registry_blind (if _ then _ else _) => apply blind_if
    | |- registry_blind (match ?x with _ => _ end) => destruct x
    | |- registry_blind (bind _ _) => apply blind_bind
    | |- registry_blind (try_catch _ _) => apply blind_try
    | |- registry_blind (ret _) => apply blind_ret
    | |- registry_blind (raise _) => apply blind_raise
    | |- registry_blind (execute _ _) => apply blind_execute
    | |- registry_blind (presign_each _ _ _) => apply blind_presign_each
    | |- forall _, _ => intro
    end.

Lemma blind_get_upload_record job : registry_blind (get_upload_record E job).
Proof. unfold get_upload_record, not_configured. blind_tac. Qed.

Lemma blind_get_result_status job : registry_blind (get_result_status E job).
Proof.
  unfold get_result_status.
  apply blind_if; [apply blind_raise |].
  apply blind_bind.
  - apply blind_try; [apply blind_get_upload_record | intros; apply blind_raise].
  - intros [rec |]; [| apply blind_raise].
    apply blind_bind; [| intros; apply blind_ret].
    blind_tac.
Qed.

(** C8. Two runs of the status query for the same job that read the
    same record from the database (or fail alike to read it) and meet
    the URL generator at the same point of its history give the same
    response, whatever the two registries, and everything else in the
    two states, hold. *)
Theorem status_query_independent_of_registry (job : string)
    (st1 st2 : State E) :
  (get_upload_record E job st1).1 = (get_upload_record E job st2).1 ->
  length (s3_log st1) = length (s3_log st2) ->
  (get_result_status E job st1).1 = (get_result_status E job st2).1.
Proof.
  intros Hrec Hlen.
  destruct (str_truthy job) eqn:Hjob.
  - rewrite !(get_result_status_run job _ Hjob), Hlen.
    destruct (get_upload_record E job st1) as [r1 st1'],
             (get_upload_record E job st2) as [r2 st2'].
    cbn in Hrec. subst r2.
    destruct r1 as [[rec |] | e]; [| reflexivity | reflexivity].
    destruct (String.eqb (rec_status rec) "COMPLETED"); [| reflexivity].
    cbn zeta. destruct (truthy (status_keys E _ _)); [| reflexivity].
    by destruct (py_iter (status_keys E _ _)).
  - unfold get_result_status. by rewrite Hjob.
Qed.

(** ** The registration handshake *)

Lemma blind_get_job_owner job : registry_blind (get_job_owner E job).
Proof. unfold get_job_owner, not_configured. blind_tac. Qed.

Lemma get_job_owner_opened job job' (st : State E) :
  (get_job_owner E job (opened job' st)).1 = (get_job_owner E job st).1.
Proof. apply blind_get_job_owner. by repeat split. Qed.

Lemma websocket_register_run websocket job rest (st : State E) :
  str_truthy job = true ->
  websocket_preconnect E websocket
    (FrameObject (Some "register") (Some job) :: rest) st
  = try_catch
      (owner_id <- get_job_owner E job ;;
       match owner_id with
       | None => send_json E (ErrorPayload "job_not_found") ;; close E 1008
       | Some owner =>
           match resolve_user E (extract_token websocket) with
           | None => send_json E (ErrorPayload "forbidden") ;; close E 1008
           | Some user =>
               if negb (String.eqb user owner) then
                 send_json E (ErrorPayload "forbidden") ;; close E 1008
               else
                 connect E job (ws_handle websocket) user ;;
                 send_json E (RegisteredPayload job) ;;
                 receive_forever E rest
           end
       end)
      (cleanup E) (opened job st).
Proof.
  intros Hjob. unfold websocket_preconnect.
  unfold bind at 1. unfold bind at 1. cbn [ws_emit set_temp_id].
  unfold try_catch. cbn [opt_truthy]. rewrite Hjob.
  rewrite bool_decide_eq_true_2 by reflexivity. cbn [andb].
  unfold bind at 1. cbn [set_temp_id the_str default]. reflexivity.
Qed.

Lemma receive_forever_run (frames : list Frame) (st : State E) :
  receive_forever E frames st = (Raise WebSocketDisconnect, st).
Proof. induction frames as [| f rest IH]; [reflexivity | exact IH]. Qed.

(** What the owner lookup of the handshake returns and leaves behind. *)
Lemma get_job_owner_in_handshake job (st : State E) :
  (get_job_owner E job (opened job st)).1 = (get_job_owner E job st).1
  /\ manager (get_job_owner E job (opened job st)).2 = manager st
  /\ manager_log (get_job_owner E job (opened job st)).2 = manager_log st
  /\ ws_log (get_job_owner E job (opened job st)).2 = ws_log st ++ [WsAccept]
  /\ temp_id (get_job_owner E job (opened job st)).2 = Some job.
Proof.
  destruct (db_only_get_job_owner job (opened job st)) as (_ & ? & ? & ? & ?).
  split; [apply get_job_owner_opened | auto].
Qed.

(** C5. A registration message naming a job for which the owner lookup
    returns no owner is answered with the payload [job_not_found]
    followed by a close with code 1008, whatever the websocket carries
    as credential and whatever the verifier makes of it; the manager is
    not called and the registry is left as it was. The payload differs
    from the one of an authorization failure. *)
Theorem unknown_job_closes_with_not_found (websocket : WebSocket)
    (job : string) (rest : list Frame) (st : State E) :
  str_truthy job = true ->
  (get_job_owner E job st).1 = Ok None ->
  let r := websocket_preconnect E websocket
             (FrameObject (Some "register") (Some job) :: rest) st in
  r.1 = Ok tt
  /\ ws_log r.2
     = ws_log st ++ [WsAccept; WsSendJson (ErrorPayload "job_not_found");
                     WsClose 1008]
  /\ manager r.2 = manager st
  /\ manager_log r.2 = manager_log st
  /\ ErrorPayload "job_not_found" <> ErrorPayload "forbidden".
Proof.
  intros Hjob Hnone r.
  pose proof (websocket_register_run websocket job rest st Hjob) as Hrun.
  destruct (get_job_owner_in_handshake job st) as (Hres & Hman & Hlog & Hws & _).
  unfold try_catch, bind at 1 in Hrun.
  destruct (get_job_owner E job (opened job st)) as [r0 st0].
  cbn [fst snd] in *. rewrite Hres, Hnone in Hrun.
  subst r. rewrite Hrun. cbn.
  rewrite Hws, <- !app_assoc. split_and!; try discriminate; done.
Qed.

(** C6. When the owner lookup returns an owner, the registration is
    admitted exactly when the credential resolves to an identity equal to
    that owner: then the manager's [connect] is called for the job. When
    the identity is absent or differs, the client gets the payload
    [forbidden] and a close with code 1008, the manager is not called
    and the registry is left as it was. *)
Theorem registration_requires_owner_identity (websocket : WebSocket)
    (job owner : string) (rest : list Frame) (st : State E) :
  str_truthy job = true ->
  (get_job_owner E job st).1 = Ok (Some owner) ->
  let user := resolve_user E (extract_token websocket) in
  let r := websocket_preconnect E websocket
             (FrameObject (Some "register") (Some job) :: rest) st in
  (user = Some owner ->
     manager_log r.2
     = manager_log st ++ [CallConnect job (ws_handle websocket) owner;
                          CallDisconnect job]
     /\ ws_log r.2 = ws_log st ++ [WsAccept; WsSendJson (RegisteredPayload job)]
     /\ manager r.2
        = manager_disconnect E job
            (manager_connect E job (ws_handle websocket) owner (manager st)))
  /\ (user <> Some owner ->
      ws_log r.2
      = ws_log st ++ [WsAccept; WsSendJson (ErrorPayload "forbidden");
                      WsClose 1008]
      /\ manager r.2 = manager st
      /\ manager_log r.2 = manager_log st).
Proof.
  intros Hjob Howner user r.
  pose proof (websocket_register_run websocket job rest st Hjob) as Hrun.
  fold user in Hrun.
  destruct (get_job_owner_in_handshake job st) as (Hres & Hman & Hlog & Hws & Htid).
  unfold try_catch, bind at 1 in Hrun.
  destruct (get_job_owner E job (opened job st)) as [r0 st0].
  cbn [fst snd] in *. rewrite Hres, Howner in Hrun.
  subst r. rewrite Hrun. clear Hrun.
  split.
  - intros ->. rewrite String.eqb_refl. cbn [negb].
    unfold bind, connect, call_manager, send_json, ws_emit.
    rewrite receive_forever_run. cbn. rewrite Htid. cbn.
    rewrite Hjob. cbn.
    rewrite Hman, Hlog, Hws, <- !app_assoc. by split_and!.
  - intros Hne.
    destruct user as [u |].
    + destruct (String.eqb_spec u owner) as [-> | _]; [done |].
      cbn. rewrite Hws, <- !app_assoc. by split_and!.
    + cbn. rewrite Hws, <- !app_assoc. by split_and!.
Qed.

(** ** Normalized locations, and push against poll *)

Lemma py_in_spec (key : string) (keys : list string) :
  py_in key keys = true <-> key ∈ keys.
Proof.
  unfold py_in. rewrite existsb_exists, list_elem_of_In. split.
  - intros (k & Hin & Heq). apply String.eqb_eq in Heq. by subst.
  - intros Hin. exists key. split; [done | apply String.eqb_refl].
Qed.

Lemma all_keys_of_member (key : string) (l : list string) :
  py_in key l = true -> l <> [] -> all_keys_of key (Some l) = l.
Proof.
  intros Hin Hne. unfold all_keys_of. destruct l as [| x l']; [done |].
  cbn [list_truthy is_nil negb default from_option id]. rewrite Hin.
  by rewrite andb_false_r.
Qed.

Lemma get_upload_record_healthy job (st : State E) (row : Row) :
  table_configured E = true ->
  execute_fails E (length (sql_log st)) (SelectRecordWithPaths job) = false ->
  table st !! job = Some row ->
  get_upload_record E job st
  = (Ok (Some {| rec_job_id := job; rec_user_id := user_id row;
                 rec_status := processing_status row;
                 rec_s3_result_path := s3_result_path row;
                 rec_s3_result_paths := s3_result_paths row |}),
     executed (SelectRecordWithPaths job) st).
Proof.
  intros Hconf Hok Hrow. unfold get_upload_record. rewrite Hconf. cbn [negb].
  unfold try_catch, bind. rewrite execute_run, Hok. cbn [fetchone].
  by rewrite Hrow.
Qed.

Lemma presigned_call_independent (n m : nat) (keys : list pyval) :
  (forall i j key, create_presigned_get_url E i key = create_presigned_get_url E j key) ->
  presigned E n keys = presigned E m keys.
Proof.
  intros Hindep. unfold presigned. f_equal.
  revert n m. induction keys as [| key rest IH]; intros n m; [done |].
  cbn. by rewrite (Hindep n m), (IH (S n) (S m)).
Qed.

Lemma presigned_nil_member (n m : nat) (key : pyval) (keys : list pyval) :
  (forall i j k, create_presigned_get_url E i k = create_presigned_get_url E j k) ->
  key ∈ keys -> presigned E n keys = [] -> create_presigned_get_url E m key = None.
Proof.
  intros Hindep Hin. revert n.
  induction Hin as [key rest | key other rest Hin IH]; intros n; unfold presigned;
    cbn [presign_answers omap].
  - rewrite (Hindep m n).
    by destruct (create_presigned_get_url E n key).
  - destruct (create_presigned_get_url E n other); [done |].
    cbn. apply IH.
Qed.

(** When the callback's list already holds the primary location, the
    database works, the job has a row and the generator answers the same
    at every call, the URLs pushed are the URLs a status query returns
    right after. *)
Lemma webhook_then_status_same_urls (job key : string) (l : list string)
    (st : State E) (row : Row) (body : WebhookResponse) :
  str_truthy job = true ->
  str_truthy key = true ->
  py_in key l = true ->
  table_configured E = true ->
  (forall n q, execute_fails E n q = false) ->
  table st !! job = Some row ->
  str_truthy (json_dumps E l) = true ->
  json_loads E (json_dumps E l) = Some (VList (VStr <$> l)) ->
  (forall i j k, create_presigned_get_url E i k = create_presigned_get_url E j k) ->
  let r := handle_webhook E (callback (Some job) (Some key) (Some l)) st in
  r.1 = Ok body ->
  manager_log r.2 = manager_log st ++ [CallSendResult job (result_urls body)]
  /\ (get_result_status E job r.2).1
     = Ok {| resp_job_id := job; resp_status := "COMPLETED";
             resp_result_url := head (result_urls body);
             resp_result_urls := Some (result_urls body) |}.
Proof.
  intros Hjob Hkey Hin Hconf Hdb Hrow Hdumps Hloads Hindep r Hbody.
  set (request := callback (Some job) (Some key) (Some l)) in *.
  assert (Hne : l <> []) by (intros ->; discriminate).
  assert (Hacc : accepted request).
  { unfold accepted, request, callback, py_or. cbn. by rewrite Hkey. }
  assert (Hk : the_str (py_or (data_s3_result_path request)
                              (data_s3_result_key request)) = key).
  { unfold request, callback, py_or. cbn. by rewrite Hkey. }
  assert (Hkeys : webhook_keys request = VStr <$> l).
  { unfold webhook_keys. rewrite Hk. cbn. by rewrite all_keys_of_member. }
  assert (Hlist : list_truthy (data_s3_result_paths request) = true).
  { cbn. by destruct l. }
  set (rich := UpdateStatusPathPaths "COMPLETED" key (json_dumps E l) job).
  destruct (persist_completed_run request job key st rich Hconf) as [Hrich _].
  { by rewrite Hlist. }
  specialize (Hrich (Hdb _ _)).
  pose proof (handle_webhook_run request st Hacc) as Hrun.
  rewrite Hk, Hkeys in Hrun.
  cbn [data_job_id request callback the_str default from_option id] in Hrun.
  set (n := length (s3_log st)) in *.
  rewrite Hrich in Hrun.
  destruct (presigned E n (VStr <$> l)) as [| u us] eqn:Hurls.
  { cbn [is_nil] in Hrun.
    rewrite (presigned_nil_member n (n + length (VStr <$> l)) (VStr key) (VStr <$> l))
      in Hrun; [| done | | done].
    - subst r. rewrite Hrun in Hbody. discriminate.
    - apply list_elem_of_fmap_2. by apply py_in_spec. }
  cbn [is_nil] in Hrun. subst r. rewrite Hrun in Hbody |- *.
  cbn [fst snd] in Hbody |- *. injection Hbody as <-. cbn [result_urls].
  split; [reflexivity |].
  rewrite (get_result_status_run job _ Hjob).
  erewrite get_upload_record_healthy; [| done | apply Hdb |].
  2:{ cbn [table log_push log_presign executed run_update rich].
      rewrite lookup_alter_eq, Hrow. reflexivity. }
  cbn [rec_status rec_s3_result_path rec_s3_result_paths processing_status
       s3_result_path s3_result_paths].
  cbn [String.eqb Ascii.eqb Bool.eqb].
  unfold status_keys. cbn [truthy]. rewrite Hdumps, Hloads.
  assert (Htruthy : truthy (VList (VStr <$> l)) = true) by (by destruct l).
  rewrite Htruthy. cbn [py_iter].
  rewrite (presigned_call_independent _ n) by done.
  by rewrite Hurls.
Qed.

(** C3, as the code has it. When the callback's list has no duplicates
    and the primary location is either not in it or its first element,
    the locations the handler works on start with the primary location,
    have no duplicates and are the primary location and those of the
    list. For the list [a, b] with primary [a] they are exactly [a, b];
    and then, if the database works, the job has a row and the generator
    answers alike at every call, the URLs pushed are the URLs the status
    query returns from the state the callback leaves. *)
Theorem normalized_locations_primary_first :
  (forall (key : string) (l : list string),
     str_truthy key = true ->
     NoDup l ->
     key ∉ l \/ head l = Some key ->
     head (all_keys_of key (Some l)) = Some key
     /\ NoDup (all_keys_of key (Some l))
     /\ (forall k, k ∈ all_keys_of key (Some l) <-> k = key \/ k ∈ l))
  /\ all_keys_of "a" (Some ["a"; "b"]) = ["a"; "b"]
  /\ (forall (job : string) (st : State E) (row : Row) (body : WebhookResponse),
        str_truthy job = true ->
        table_configured E = true ->
        (forall n q, execute_fails E n q = false) ->
        table st !! job = Some row ->
        str_truthy (json_dumps E ["a"; "b"]) = true ->
        json_loads E (json_dumps E ["a"; "b"]) = Some (VList [VStr "a"; VStr "b"]) ->
        (forall i j k,
           create_presigned_get_url E i k = create_presigned_get_url E j k) ->
        let r := handle_webhook E
                   (callback (Some job) (Some "a") (Some ["a"; "b"])) st in
        r.1 = Ok body ->
        manager_log r.2 = manager_log st ++ [CallSendResult job (result_urls body)]
        /\ (get_result_status E job r.2).1
           = Ok {| resp_job_id := job; resp_status := "COMPLETED";
                   resp_result_url := head (result_urls body);
                   resp_result_urls := Some (result_urls body) |}).
Proof.
  split_and!.
  - intros key l Hkey Hnodup Hcase. unfold all_keys_of. rewrite Hkey.
    destruct l as [| x l'].
    + cbn. split_and!; [done | apply NoDup_singleton |].
      intros k. rewrite list_elem_of_singleton.
      split; [by left | intros [-> | Hin]; [done | by apply elem_of_nil in Hin]].
    + cbn [list_truthy is_nil negb default from_option id andb].
      destruct (py_in key (x :: l')) eqn:Hin; cbn [negb].
      * apply py_in_spec in Hin.
        destruct Hcase as [Hnot | Hhead]; [done |].
        split_and!; [done | done |]. intros k. split; [auto |].
        intros [-> | ?]; done.
      * assert (Hnot : key ∉ x :: l').
        { intros Hin'. apply py_in_spec in Hin'. congruence. }
        split_and!; [done | by apply NoDup_cons |].
        intros k. by rewrite elem_of_cons.
  - reflexivity.
  - intros job st row body Hjob Hconf Hdb Hrow Hdumps Hloads Hindep.
    by apply (webhook_then_status_same_urls job "a" ["a"; "b"] st row body).
Qed.

End Facts.

(** ** The properties on concrete runs *)

Lemma push_outcome_only_changes_message_witness :
  let request := callback (Some "J1") (Some "out/J1.zip") None in
  let st := initial_state env_push_raises table1 tt in
  (handle_webhook env_push_raises request st).1
  = Ok {| message := "Result URL(s) generated.";
          result_urls := ["https://s3/out/J1.zip"] |}
  /\ http_status 202 (handle_webhook env_push_raises request st).1 = 202.
Proof.
  intros request st.
  destruct (push_outcome_only_changes_message env_push_raises request st
              (webhook_until_push env_push_raises request st).2
              "J1" ["https://s3/out/J1.zip"]) as (H1 & H2 & _).
  - rewrite (surjective_pairing (webhook_until_push env_push_raises request st))
      at 1.
    reflexivity.
  - split; [exact H1 | exact H2].
Defined.

Lemma webhook_url_generation_witness :
  let request := callback (Some "J1") (Some "a") (Some ["a"; "b"]) in
  let st := initial_state env_signer_fails_twice table1 ∅ in
  let r := handle_webhook env_signer_fails_twice request st in
  s3_log r.2 = [VStr "a"; VStr "b"; VStr "a"]
  /\ (exists msg, r.1 = Ok {| message := msg; result_urls := ["https://s3/a"] |})
  /\ http_status 202 r.1 = 202.
Proof.
  intros request st r.
  assert (Hacc : accepted request) by (repeat split; reflexivity).
  destruct (webhook_url_generation env_signer_fails_twice request st Hacc)
    as [_ Hfallback].
  destruct (Hfallback eq_refl) as (Hlog & Hurl & Hstatus).
  split_and!; [exact Hlog | exact Hurl | exact Hstatus].
Defined.

Lemma webhook_400_witness :
  http_status 202
    (handle_webhook env1 (callback None (Some "a") None) state1).1 = 400.
Proof.
  apply (webhook_400_iff_job_or_single_location_missing env1
           (callback None (Some "a") None) state1).
  - reflexivity.
  - left. reflexivity.
Defined.

Lemma persistence_falls_back_witness :
  let request := callback (Some "J1") (Some "a") (Some ["a"; "b"]) in
  let st := initial_state env_no_paths_column table1 ∅ in
  (persist_completed env_no_paths_column request "J1" "a" st).2
  = executed (UpdateStatusPath "COMPLETED" (Some "a") "J1")
      (rejected (UpdateStatusPathPaths "COMPLETED" "a" (PyJson.dumps ["a"; "b"]) "J1")
         st).
Proof.
  intros request st.
  assert (Hacc : accepted request) by (repeat split; reflexivity).
  destruct (persistence_falls_back_and_never_fails_callback
              env_no_paths_column request st Hacc) as (Hrich & _).
  destruct (Hrich eq_refl eq_refl) as [_ Hfallback].
  exact (Hfallback eq_refl eq_refl).
Defined.

Lemma status_query_refines_spec_witness :
  (get_result_status env1 "J1" (initial_state env1 table_json_list ∅)).1
  = Ok {| resp_job_id := "J1"; resp_status := "COMPLETED";
          resp_result_url := Some "https://s3/a";
          resp_result_urls := Some ["https://s3/a"; "https://s3/b"] |}.
Proof.
  destruct (status_query_refines_spec env1 "J1"
              (initial_state env1 table_json_list ∅)
              {| rec_job_id := "J1"; rec_user_id := Some "U1";
                 rec_status := "COMPLETED"; rec_s3_result_path := Some "a";
                 rec_s3_result_paths := VStr (PyJson.dumps ["a"; "b"]) |})
    as [Hspec _].
  - reflexivity.
  - vm_compute. reflexivity.
  - rewrite Hspec; [vm_compute; reflexivity | vm_compute; exact I].
Defined.

Lemma undecodable_paths_witness :
  let r := get_result_status env1 "J1" (initial_state env1 table_not_json ∅) in
  s3_log r.2 = [VStr "out/J1.zip"]
  /\ r.1 = Ok {| resp_job_id := "J1"; resp_status := "COMPLETED";
                 resp_result_url := Some "https://s3/out/J1.zip";
                 resp_result_urls := Some ["https://s3/out/J1.zip"] |}.
Proof.
  apply (undecodable_paths_is_single_location env1 "J1"
           (initial_state env1 table_not_json ∅)
           {| rec_job_id := "J1"; rec_user_id := Some "U1";
              rec_status := "COMPLETED"; rec_s3_result_path := Some "a";
              rec_s3_result_paths := VStr "out/J1.zip" |}
           "out/J1.zip").
  - reflexivity.
  - vm_compute. reflexivity.
  - reflexivity.
  - reflexivity.
  - discriminate.
  - vm_compute. reflexivity.
Defined.

Lemma status_query_independent_of_registry_witness :
  (get_result_status env1 "J1" (initial_state env1 table_json_list ∅)).1
  = (get_result_status env1 "J1" (initial_state env1 table_json_list registry1)).1.
Proof.
  apply (status_query_independent_of_registry env1 "J1"
           (initial_state env1 table_json_list ∅)
           (initial_state env1 table_json_list registry1)).
  - vm_compute. reflexivity.
  - reflexivity.
Defined.

Lemma unknown_job_witness :
  let r := websocket_preconnect env1 (websocket1 (Some "tok-U1"))
             [FrameObject (Some "register") (Some "J9")] state1 in
  r.1 = Ok tt
  /\ ws_log r.2 = [WsAccept; WsSendJson (ErrorPayload "job_not_found"); WsClose 1008]
  /\ manager r.2 = ∅
  /\ manager_log r.2 = [].
Proof.
  destruct (unknown_job_closes_with_not_found env1 (websocket1 (Some "tok-U1"))
              "J9" [] state1) as (H1 & H2 & H3 & H4 & _).
  - reflexivity.
  - vm_compute. reflexivity.
  - split_and!; [exact H1 | exact H2 | exact H3 | exact H4].
Defined.

Lemma registration_requires_owner_witness :
  let r := websocket_preconnect env1 (websocket1 (Some "tok-U2"))
             [FrameObject (Some "register") (Some "J1")] state1 in
  ws_log r.2 = [WsAccept; WsSendJson (ErrorPayload "forbidden"); WsClose 1008]
  /\ manager r.2 = ∅
  /\ manager_log r.2 = [].
Proof.
  destruct (registration_requires_owner_identity env1 (websocket1 (Some "tok-U2"))
              "J1" "U1" [] state1) as [_ Hforbidden].
  - reflexivity.
  - vm_compute. reflexivity.
  - apply Hforbidden. vm_compute. discriminate.
Defined.

Lemma normalized_locations_witness :
  let r := handle_webhook env1
             (callback (Some "J1") (Some "a") (Some ["a"; "b"])) state1 in
  head (all_keys_of "a" (Some ["a"; "b"])) = Some "a"
  /\ NoDup (all_keys_of "a" (Some ["a"; "b"]))
  /\ manager_log r.2 = [CallSendResult "J1" ["https://s3/a"; "https://s3/b"]]
  /\ (get_result_status env1 "J1" r.2).1
     = Ok {| resp_job_id := "J1"; resp_status := "COMPLETED";
             resp_result_url := Some "https://s3/a";
             resp_result_urls := Some ["https://s3/a"; "https://s3/b"] |}.
Proof.
  intros r.
  destruct (normalized_locations_primary_first env1) as (Hnorm & _ & Hsame).
  destruct (Hnorm "a" ["a"; "b"]) as (Hhead & Hnodup & _).
  - reflexivity.
  - repeat constructor; rewrite ?elem_of_cons, ?elem_of_nil; intuition discriminate.
  - right. reflexivity.
  - destruct (Hsame "J1" state1 (pending_row (Some "U1"))
                {| message := "Result URL(s) generated.";
                   result_urls := ["https://s3/a"; "https://s3/b"] |})
      as [Hpush Hstatus].
    + reflexivity.
    + reflexivity.
    + reflexivity.
    + reflexivity.
    + reflexivity.
    + vm_compute. reflexivity.
    + reflexivity.
    + vm_compute. reflexivity.
    + split_and!; [exact Hhead | exact Hnodup | exact Hpush | exact Hstatus].
Defined.

(** ** Where the code departs from the specification *)

(** C2. Every statement is rejected, so not even the write of status and
    primary location goes through, and the callback is answered 202. *)
Lemma callback_accepted_though_no_write_succeeds :
  let request := callback (Some "J1") (Some "a") (Some ["a"; "b"]) in
  let st := initial_state env_broken_db table1 ∅ in
  let r := handle_webhook env_broken_db request st in
  (forall n q, execute_fails env_broken_db n q = true)
  /\ sql_log r.2
     = [UpdateStatusPathPaths "COMPLETED" "a" (PyJson.dumps ["a"; "b"]) "J1";
        UpdateStatusPath "COMPLETED" (Some "a") "J1";
        UpdateStatusPath "COMPLETED" (Some "a") "J1";
        UpdateStatus "COMPLETED" "J1"]
  /\ table r.2 = table1
  /\ r.1 = Ok {| message := "Result URL(s) generated.";
                 result_urls := ["https://s3/a"; "https://s3/b"] |}
  /\ http_status 202 r.1 = 202.
Proof. vm_compute. split_and!; reflexivity. Qed.

(** C3. A list with a repeated location keeps it, and a primary location
    that is in the list but not first stays where it is. *)
Lemma locations_not_deduplicated_nor_primary_first :
  let r1 := handle_webhook env1
              (callback (Some "J1") (Some "a") (Some ["a"; "a"])) state1 in
  let r2 := handle_webhook env1
              (callback (Some "J1") (Some "b") (Some ["a"; "b"])) state1 in
  all_keys_of "a" (Some ["a"; "a"]) = ["a"; "a"]
  /\ ~ NoDup (all_keys_of "a" (Some ["a"; "a"]))
  /\ s3_log r1.2 = [VStr "a"; VStr "a"]
  /\ r1.1 = Ok {| message := "Result URL(s) generated.";
                  result_urls := ["https://s3/a"; "https://s3/a"] |}
  /\ head (all_keys_of "b" (Some ["a"; "b"])) = Some "a"
  /\ s3_log r2.2 = [VStr "a"; VStr "b"]
  /\ r2.1 = Ok {| message := "Result URL(s) generated.";
                  result_urls := ["https://s3/a"; "https://s3/b"] |}.
Proof.
  intros r1 r2. split_and!; try (vm_compute; reflexivity).
  intros Hnodup. apply NoDup_cons in Hnodup as [Hnot _].
  apply Hnot. by left.
Qed.

(** C4. A verified callback with a job id and a non-empty list but no
    single location is answered 400 and nothing is done. *)
Lemma list_alone_is_rejected :
  let request := callback (Some "J1") None (Some ["a"]) in
  handle_webhook env1 request state1
  = (Raise (HTTPException 400 "job_id and s3_result_path required"), state1)
  /\ http_status 202 (handle_webhook env1 request state1).1 = 400.
Proof.
  intros request. rewrite handle_webhook_rejected.
  - split; reflexivity.
  - intros (_ & _ & Hkey). vm_compute in Hkey. discriminate.
Qed.

(** C7. The callback names primary [a] and list [b]: the handler works
    on the locations [a, b] and pushes their URLs, and the status query
    on the state it leaves rebuilds the list [b] alone. And a COMPLETED
    record whose list field decodes to a number is not answered at
    all: the loop over it raises. *)
Lemma status_query_differs_from_pushed_list :
  let r := handle_webhook env1
             (callback (Some "J1") (Some "a") (Some ["b"])) state1 in
  (s3_log r.2 = [VStr "a"; VStr "b"]
   /\ manager_log r.2 = [CallSendResult "J1" ["https://s3/a"; "https://s3/b"]]
   /\ (get_result_status env1 "J1" r.2).1
      = Ok {| resp_job_id := "J1"; resp_status := "COMPLETED";
              resp_result_url := Some "https://s3/b";
              resp_result_urls := Some ["https://s3/b"] |})
  /\ (get_result_status env1 "J1" (initial_state env1 table_json_number ∅)).1
     = Raise (PyException "TypeError: object is not iterable").
Proof. vm_compute. split_and!; reflexivity. Qed.

(** C10. The empty string does not decode as JSON, and a record that
    stores it in the list field is answered from the primary location:
    the field is ignored. *)
Lemma empty_string_paths_is_ignored :
  let r := get_result_status env1 "J1" (initial_state env1 table_empty_string ∅) in
  json_loads env1 EmptyString = None
  /\ s3_log r.2 = [VStr "k"]
  /\ r.1 = Ok {| resp_job_id := "J1"; resp_status := "COMPLETED";
                 resp_result_url := Some "https://s3/k";
                 resp_result_urls := Some ["https://s3/k"] |}.
Proof. vm_compute. split_and!; reflexivity. Qed.

(** * Further properties of the code *)

(** ** State relations kept by the database methods *)

Section Preserves.

Context {E : Env} (R : relation (State E)) `{!PreOrder R}.

Local Open Scope py_scope.

Lemma preserves_ret {A} (a : A) : preserves R (ret a).
Proof. intros st. cbn. reflexivity. Qed.

Lemma preserves_raise {A} (e : exn) : preserves (A:=A) R (raise e).
Proof. intros st. cbn. reflexivity. Qed.

Lemma preserves_bind {A B} (m : M (State E) A) (k : A -> M (State E) B) :
  preserves R m -> (forall a, preserves R (k a)) -> preserves R (bind m k).
Proof.
  intros Hm Hk st. unfold bind. specialize (Hm st).
  destruct (m st) as [[a | e] st']; cbn in *; [| done].
  by etrans; [| apply Hk].
Qed.

Lemma preserves_try {A} (m : M (State E) A) (h : exn -> M (State E) A) :
  preserves R m -> (forall e, preserves R (h e)) -> preserves R (try_catch m h).
Proof.
  intros Hm Hh st. unfold try_catch. specialize (Hm st).
  destruct (m st) as [[a | e] st']; cbn in *; [done |].
  by etrans; [| apply Hh].
Qed.

Lemma preserves_if {A} (b : bool) (m1 m2 : M (State E) A) :
  preserves R m1 -> preserves R m2 -> preserves R (if b then m1 else m2).
Proof. by destruct b. Qed.

(** The statements [P] allows move the state along [R], accepted or
    not. *)
Context (P : Sql -> Prop).
Context (Hsent : forall q st, P q -> R st (rejected q st) /\ R st (executed q st)).

Lemma preserves_execute (q : Sql) : P q -> preserves R (execute E q).
Proof.
  intros Hq st. rewrite execute_run.
  destruct (Hsent q st Hq). by destruct (execute_fails E _ q).
Qed.

Ltac preserves_tac :=
  repeat
    lazymatch goal with
    | |- preserves _ (if _ then _ else _) => apply preserves_if
    | |- preserves _ (match ?x with _ => _ end) => destruct x
    | |- preserves _ (bind _ _) => apply preserves_bind
    | |- preserves _ (try_catch _ _) => apply preserves_try
    | |- preserves _ (ret _) => apply preserves_ret
    | |- preserves _ (raise _) => apply preserves_raise
    | |- preserves _ (execute _ _) => apply preserves_execute
    | |- forall _, _ => intro
    end.

Lemma preserves_update_upload_status job status path :
  (forall q, updates job status q -> P q) ->
  preserves R (update_upload_status E job status path).
Proof.
  intros HP. unfold update_upload_status, not_configured.
  preserves_tac; apply HP; by cbn.
Qed.

Lemma preserves_update_upload_status_with_paths job status path paths :
  (forall q, updates job status q -> P q) ->
  preserves R (update_upload_status_with_paths E job status path paths).
Proof.
  intros HP. unfold update_upload_status_with_paths, not_configured.
  preserves_tac; apply HP; by cbn.
Qed.

Lemma preserves_get_upload_record job :
  (forall q, selects job q -> P q) ->
  preserves R (get_upload_record E job).
Proof.
  intros HP. unfold get_upload_record, not_configured.
  preserves_tac; apply HP; by cbn.
Qed.

Lemma preserves_get_job_owner job :
  (forall q, selects job q -> P q) ->
  preserves R (get_job_owner E job).
Proof.
  intros HP. unfold get_job_owner, not_configured.
  preserves_tac; apply HP; by cbn.
Qed.

Lemma preserves_persist_completed request job key :
  (forall q, updates job "COMPLETED" q -> P q) ->
  preserves R (persist_completed E request job key).
Proof.
  intros HP. unfold persist_completed.
  apply preserves_try; [apply preserves_try |]; intros.
  - by apply preserves_update_upload_status_with_paths.
  - by apply preserves_update_upload_status.
  - apply preserves_ret.
Qed.

End Preserves.

(** ** The three relations *)

#[local] Instance same_owners_preorder {E : Env} : PreOrder (@same_owners E).
Proof.
  split; [by intros st | intros st1 st2 st3 H12 H23].
  unfold same_owners in *. congruence.
Qed.

#[local] Instance same_other_rows_preorder {E : Env} (job : string) :
  PreOrder (@same_other_rows E job).
Proof.
  split; [by intros st j | intros st1 st2 st3 H12 H23 j Hj].
  by rewrite H23, H12.
Qed.

#[local] Instance sent_only_preorder {E : Env} (P : Sql -> Prop) :
  PreOrder (@sent_only E P).
Proof.
  split.
  - intros st. exists []. by rewrite app_nil_r.
  - intros st1 st2 st3 (s12 & H12 & HP12) (s23 & H23 & HP23).
    exists (s12 ++ s23). rewrite H23, H12, app_assoc.
    split; [done | by apply Forall_app].
Qed.

Lemma owners_run_update (q : Sql) (t : gmap string Row) :
  owners (run_update q t) = owners t.
Proof.
  unfold owners. apply map_eq. intros j.
  destruct q; cbn [run_update]; try done;
    rewrite !lookup_fmap, lookup_alter;
    (case_decide; [subst; by destruct (t !! _) | done]).
Qed.

Lemma other_rows_run_update (job status : string) (q : Sql)
    (t : gmap string Row) (j : string) :
  updates job status q -> j <> job -> run_update q t !! j = t !! j.
Proof.
  intros Hq Hj.
  destruct q; cbn in Hq; try done; destruct Hq as [_ ->];
    cbn [run_update]; by rewrite lookup_alter_ne.
Qed.

Lemma table_run_select (job : string) (q : Sql) (t : gmap string Row) :
  selects job q -> run_update q t = t.
Proof. by destruct q. Qed.

Section More.

Context (E : Env).

Local Open Scope py_scope.

Lemma accepted_dec (request : WebhookRequest) :
  accepted request \/ ~ accepted request.
Proof.
  unfold accepted.
  destruct (signature_ok request), (opt_truthy (data_job_id request)),
    (opt_truthy (py_or _ _)); intuition congruence.
Qed.

(** What an accepted callback leaves in the database is what its
    persistence step leaves. *)
Lemma handle_webhook_database request (st : State E) :
  accepted request ->
  let st0 := (persist_completed E request (the_str (data_job_id request))
                (the_str (py_or (data_s3_result_path request)
                                (data_s3_result_key request))) st).2 in
  table (handle_webhook E request st).2 = table st0
  /\ sql_log (handle_webhook E request st).2 = sql_log st0.
Proof.
  intros Hacc st0. rewrite (handle_webhook_run E request st Hacc).
  destruct (is_nil _); [destruct (create_presigned_get_url E _ _) |]; done.
Qed.

Lemma handle_webhook_preserves (R : relation (State E)) `{!PreOrder R}
    (P : Sql -> Prop) request (st : State E) :
  (forall q st, P q -> R st (rejected q st) /\ R st (executed q st)) ->
  (forall q, updates (the_str (data_job_id request)) "COMPLETED" q -> P q) ->
  (forall st1 st2 : State E,
     table st1 = table st2 -> sql_log st1 = sql_log st2 -> R st st1 -> R st st2) ->
  R st (handle_webhook E request st).2.
Proof.
  intros Hsent HP Hdb.
  destruct (accepted_dec request) as [Hacc | Hrej].
  - destruct (handle_webhook_database request st Hacc) as [Ht Hq].
    eapply Hdb; [symmetry; apply Ht | symmetry; apply Hq |].
    by apply (preserves_persist_completed R P Hsent).
  - rewrite (handle_webhook_rejected E request st Hrej). reflexivity.
Qed.

(** ** The completion webhook and the rows *)

(** X1. Whatever the callback and whatever the database and the other
    collaborators do, the webhook neither creates nor deletes a row,
    never changes the owner of a row, and leaves every row but the one
    of the callback's job as it was. *)
Theorem webhook_keeps_rows_and_owners (request : WebhookRequest)
    (st : State E) :
  let st' := (handle_webhook E request st).2 in
  owners (table st') = owners (table st)
  /\ dom (table st') = dom (table st)
  /\ (forall j, j <> the_str (data_job_id request) ->
        table st' !! j = table st !! j).
Proof.
  intros st'.
  assert (Howners : owners (table st') = owners (table st)).
  { apply (handle_webhook_preserves same_owners (fun _ => True)); [| done |].
    - intros q st0 _. unfold same_owners. cbn. by rewrite owners_run_update.
    - intros st1 st2 Ht _. unfold same_owners. by rewrite Ht. }
  split_and!; [done | |].
  - unfold owners in Howners.
    by rewrite <- (dom_fmap_L user_id (table st')), Howners, dom_fmap_L.
  - apply (handle_webhook_preserves
             (same_other_rows (the_str (data_job_id request)))
             (updates (the_str (data_job_id request)) "COMPLETED")); [| done |].
    + intros q st0 Hq. split; intros j Hj; [done |].
      cbn. by eapply other_rows_run_update.
    + intros st1 st2 Ht _ H j Hj. rewrite <- Ht. by apply H.
Qed.

Lemma persist_completed_at_most_four request job key (st : State E) :
  (length (sql_log (persist_completed E request job key st).2)
   <= length (sql_log st) + 4)%nat.
Proof.
  unfold persist_completed, update_upload_status_with_paths,
    update_upload_status, not_configured.
  destruct (table_configured E); cbn [negb]; [| cbn; lia].
  set (q1 := match (if list_truthy (data_s3_result_paths request)
                    then Some (json_dumps E (default [] (data_s3_result_paths request)))
                    else None), Some key with
             | Some ps, Some p => execute E (UpdateStatusPathPaths "COMPLETED" p ps job)
             | Some ps, None => execute E (UpdateStatusPaths "COMPLETED" ps job)
             | None, Some p => execute E (UpdateStatusPath "COMPLETED" (Some p) job)
             | None, None => execute E (UpdateStatus "COMPLETED" job)
             end).
  assert (Hq1 : exists q, q1 = execute E q) by
    (subst q1; destruct (list_truthy _); eauto).
  destruct Hq1 as [q ->].
  unfold try_catch, bind, raise, ret. rewrite !execute_run.
  repeat
    (match goal with
     | |- context [execute_fails E ?n ?q] => destruct (execute_fails E n q)
     end; rewrite ?execute_run; cbn [fst snd]);
    cbn; rewrite ?length_app; cbn; lia.
Qed.

(** X2. Every statement the webhook sends is an [UPDATE] of the
    callback's job that sets the status COMPLETED; it never reads, it
    sends at most four statements per callback, and none at all for a
    callback it rejects. *)
Theorem webhook_sends_only_completed_updates (request : WebhookRequest)
    (st : State E) :
  let st' := (handle_webhook E request st).2 in
  exists sent,
    sql_log st' = sql_log st ++ sent
    /\ Forall (updates (the_str (data_job_id request)) "COMPLETED") sent
    /\ (length sent <= 4)%nat
    /\ (~ accepted request -> sent = []).
Proof.
  intros st'.
  destruct (handle_webhook_preserves
              (sent_only (updates (the_str (data_job_id request)) "COMPLETED"))
              (updates (the_str (data_job_id request)) "COMPLETED") request st)
    as (sent & Hlog & Hsent).
  - intros q st0 Hq. split; exists [q]; by repeat constructor.
  - done.
  - intros st1 st2 _ Hq (sent & Hlog & Hsent). exists sent. by rewrite <- Hq.
  - exists sent. fold st' in Hlog. split_and!; [done | done | |].
    + destruct (accepted_dec request) as [Hacc | Hrej].
      * destruct (handle_webhook_database request st Hacc) as [_ Hq].
        fold st' in Hq.
        pose proof (persist_completed_at_most_four request
                      (the_str (data_job_id request))
                      (the_str (py_or (data_s3_result_path request)
                                      (data_s3_result_key request))) st) as Hlen.
        rewrite <- Hq, Hlog, length_app in Hlen. lia.
      * subst st'. rewrite (handle_webhook_rejected E request st Hrej) in Hlog.
        cbn in Hlog. apply (f_equal length) in Hlog.
        rewrite length_app in Hlog. lia.
    + intros Hrej. subst st'.
      rewrite (handle_webhook_rejected E request st Hrej) in Hlog.
      cbn in Hlog. rewrite <- (app_nil_r (sql_log st)) in Hlog at 1.
      by apply app_inv_head in Hlog.
Qed.

(** X3. The webhook pushes exactly when it answers with a body: one call
    to [send_result_to_client], for the callback's job, with the very
    URLs of the response, which are never an empty list. When it answers
    with an error the manager is not called and the registry is as it
    was. It never calls [connect] or [disconnect]. *)
Theorem webhook_pushes_once_with_response_urls (request : WebhookRequest)
    (st : State E) :
  let r := handle_webhook E request st in
  (forall body, r.1 = Ok body ->
     manager_log r.2
     = manager_log st
       ++ [CallSendResult (the_str (data_job_id request)) (result_urls body)]
     /\ result_urls body <> [])
  /\ (forall e, r.1 = Raise e ->
      manager_log r.2 = manager_log st /\ manager r.2 = manager st).
Proof.
  intros r. subst r.
  destruct (accepted_dec request) as [Hacc | Hrej].
  - rewrite (handle_webhook_run E request st Hacc).
    destruct (persist_completed_frame E request (the_str (data_job_id request))
                (the_str (py_or (data_s3_result_path request)
                                (data_s3_result_key request))) st)
      as (_ & Hman & Hlog).
    destruct (presigned E _ _) as [| u us] eqn:Hurls; cbn [is_nil].
    + destruct (create_presigned_get_url E _ _) as [url |]; cbn.
      * split; [intros body [= <-]; cbn; by rewrite Hlog | intros e [=]].
      * split; [intros body [=] | intros e _; by rewrite Hlog, Hman].
    + cbn. split; [intros body [= <-]; cbn; by rewrite Hlog | intros e [=]].
  - rewrite (handle_webhook_rejected E request st Hrej). cbn.
    split; [intros body [=] | done].
Qed.

(** X4. A callback that does not pass verification, or that lacks a job
    id or a single location, has no effect at all: the state is left as
    it was (no statement, no URL generation, no push). Verification
    comes first: an unverified callback is answered 401 whatever its
    body, a verified one that lacks a field 400. *)
Theorem rejected_callback_changes_nothing (request : WebhookRequest)
    (st : State E) :
  ~ accepted request ->
  let r := handle_webhook E request st in
  r.2 = st
  /\ (signature_ok request = false -> http_status 202 r.1 = 401)
  /\ (signature_ok request = true -> http_status 202 r.1 = 400).
Proof.
  intros Hrej r. subst r. rewrite (handle_webhook_rejected E request st Hrej).
  cbn. split_and!; [done | by intros -> | by intros ->].
Qed.

(** ** What the webhook writes, read back *)

Lemma opt_truthy_the_str (o : option string) :
  opt_truthy o = true -> str_truthy (the_str o) = true.
Proof. by destruct o. Qed.

Lemma get_upload_record_fallback job (st : State E) (row : Row) :
  table_configured E = true ->
  execute_fails E (length (sql_log st)) (SelectRecordWithPaths job) = true ->
  execute_fails E (S (length (sql_log st))) (SelectRecord job) = false ->
  table st !! job = Some row ->
  get_upload_record E job st
  = (Ok (Some {| rec_job_id := job; rec_user_id := user_id row;
                 rec_status := processing_status row;
                 rec_s3_result_path := s3_result_path row;
                 rec_s3_result_paths := VNone |}),
     executed (SelectRecord job) (rejected (SelectRecordWithPaths job) st)).
Proof.
  intros Hconf Hfirst Hsecond Hrow. unfold get_upload_record.
  rewrite Hconf. cbn [negb]. unfold try_catch, bind.
  rewrite execute_run, Hfirst, execute_run, length_sql_log_rejected, Hsecond.
  cbn [fetchone rejected table]. by rewrite Hrow.
Qed.

(** X5. What an accepted callback writes is what the table holds for the
    job afterwards (the job has a row, the table is configured). If the
    first statement is accepted, the row has status COMPLETED, the
    primary location and, when the callback has a list, its JSON. If
    the richer write is rejected and the next one accepted, the list is
    not stored: the row keeps the list it had. A callback without a list
    likewise leaves the stored list as it was. The owner is kept in
    every case. *)
Theorem webhook_writes_are_read_back (request : WebhookRequest)
    (st : State E) (row : Row) :
  accepted request ->
  table_configured E = true ->
  table st !! the_str (data_job_id request) = Some row ->
  let job := the_str (data_job_id request) in
  let key := the_str (py_or (data_s3_result_path request)
                            (data_s3_result_key request)) in
  let paths := data_s3_result_paths request in
  let n := length (sql_log st) in
  let rich :=
    UpdateStatusPathPaths "COMPLETED" key (json_dumps E (default [] paths)) job in
  let minimal := UpdateStatusPath "COMPLETED" (Some key) job in
  let st' := (handle_webhook E request st).2 in
  let stored (list_field : pyval) :=
    Some {| user_id := user_id row; processing_status := "COMPLETED";
            s3_result_path := Some key; s3_result_paths := list_field |} in
  (list_truthy paths = true -> execute_fails E n rich = false ->
     table st' !! job = stored (VStr (json_dumps E (default [] paths))))
  /\ (list_truthy paths = true -> execute_fails E n rich = true ->
      execute_fails E (S n) minimal = false ->
      table st' !! job = stored (s3_result_paths row))
  /\ (list_truthy paths = false -> execute_fails E n minimal = false ->
      table st' !! job = stored (s3_result_paths row)).
Proof.
  intros Hacc Hconf Hrow job key paths n rich minimal st' stored.
  fold job in Hrow.
  destruct (handle_webhook_database request st Hacc) as [Ht _].
  fold job key st' in Ht. rewrite Ht.
  split_and!.
  - intros Hlist Hok.
    destruct (persist_completed_run E request job key st rich Hconf) as [H _];
      [by fold paths; rewrite Hlist |].
    rewrite (H Hok). cbn. by rewrite lookup_alter_eq, Hrow.
  - intros Hlist Hrich Hmin.
    destruct (persist_completed_run E request job key st rich Hconf) as [_ H];
      [by fold paths; rewrite Hlist |].
    rewrite (H Hrich Hmin). cbn. by rewrite lookup_alter_eq, Hrow.
  - intros Hno Hok.
    destruct (persist_completed_run E request job key st minimal Hconf) as [H _];
      [by fold paths; rewrite Hno |].
    rewrite (H Hok). cbn. by rewrite lookup_alter_eq, Hrow.
Qed.

(** The status query on a COMPLETED record whose list field holds the
    JSON of a non-empty list. *)
Lemma get_result_status_of_list job (st st0 : State E) (rec : UploadRecord)
    (s : string) (l : list pyval) :
  str_truthy job = true ->
  get_upload_record E job st = (Ok (Some rec), st0) ->
  rec_status rec = "COMPLETED" ->
  rec_s3_result_paths rec = VStr s ->
  str_truthy s = true ->
  json_loads E s = Some (VList l) ->
  l <> [] ->
  let urls := presigned E (length (s3_log st)) l in
  get_result_status E job st
  = (Ok {| resp_job_id := job; resp_status := "COMPLETED";
           resp_result_url := head urls;
           resp_result_urls := if is_nil urls then None else Some urls |},
     log_presign l st0).
Proof.
  intros Hjob Hrec Hstatus Hpaths Hs Hloads Hl urls.
  rewrite (get_result_status_run E job st Hjob), Hrec, Hstatus, Hpaths.
  cbn [String.eqb Ascii.eqb Bool.eqb]. unfold status_keys.
  cbn [truthy]. rewrite Hs, Hloads. cbn [truthy py_iter].
  by destruct l.
Qed.

(** The status query on a COMPLETED record that has a primary location
    and no list field. *)
Lemma get_result_status_of_primary job (st st0 : State E) (rec : UploadRecord)
    (key : string) :
  str_truthy job = true ->
  get_upload_record E job st = (Ok (Some rec), st0) ->
  rec_status rec = "COMPLETED" ->
  rec_s3_result_paths rec = VNone ->
  rec_s3_result_path rec = Some key ->
  str_truthy key = true ->
  let urls := presigned E (length (s3_log st)) [VStr key] in
  get_result_status E job st
  = (Ok {| resp_job_id := job; resp_status := "COMPLETED";
           resp_result_url := head urls;
           resp_result_urls := if is_nil urls then None else Some urls |},
     log_presign [VStr key] st0).
Proof.
  intros Hjob Hrec Hstatus Hpaths Hpath Hkey urls.
  rewrite (get_result_status_run E job st Hjob), Hrec, Hstatus, Hpaths, Hpath.
  cbn [String.eqb Ascii.eqb Bool.eqb]. unfold status_keys.
  cbn [truthy opt_truthy]. rewrite Hkey. by cbn.
Qed.

(** X6. A callback without a list does not clear a list stored earlier,
    and the status query prefers the stored list: after such a callback
    (database working, the job's row holding the JSON of a non-empty
    list) the status query asks URLs for the locations of the old list
    and answers with them; the primary location the callback has just
    reported is not among the locations asked unless the old list has
    it. *)
Theorem callback_without_list_leaves_status_on_old_list
    (request : WebhookRequest) (st : State E) (row : Row) (s : string)
    (old : list pyval) :
  accepted request ->
  list_truthy (data_s3_result_paths request) = false ->
  table_configured E = true ->
  (forall n q, execute_fails E n q = false) ->
  table st !! the_str (data_job_id request) = Some row ->
  s3_result_paths row = VStr s ->
  str_truthy s = true ->
  json_loads E s = Some (VList old) ->
  old <> [] ->
  let job := the_str (data_job_id request) in
  let st' := (handle_webhook E request st).2 in
  let urls := presigned E (length (s3_log st')) old in
  s3_log (get_result_status E job st').2 = s3_log st' ++ old
  /\ (get_result_status E job st').1
     = Ok {| resp_job_id := job; resp_status := "COMPLETED";
             resp_result_url := head urls;
             resp_result_urls := if is_nil urls then None else Some urls |}.
Proof.
  intros Hacc Hno Hconf Hdb Hrow Hpaths Hs Hloads Hold job st' urls.
  fold job in Hrow.
  assert (Hjob : str_truthy job = true).
  { apply opt_truthy_the_str. by destruct Hacc as (_ & ? & _). }
  set (key := the_str (py_or (data_s3_result_path request)
                             (data_s3_result_key request))).
  assert (Hrow' : table st' !! job
                  = Some {| user_id := user_id row; processing_status := "COMPLETED";
                            s3_result_path := Some key;
                            s3_result_paths := VStr s |}).
  { destruct (handle_webhook_database request st Hacc) as [Ht _].
    fold job key st' in Ht. rewrite Ht.
    destruct (persist_completed_run E request job key st
                (UpdateStatusPath "COMPLETED" (Some key) job) Hconf) as [H _];
      [by rewrite Hno |].
    rewrite (H (Hdb _ _)). cbn. by rewrite lookup_alter_eq, Hrow, <- Hpaths. }
  rewrite (get_result_status_of_list job st'
             (executed (SelectRecordWithPaths job) st') _ s old Hjob
             (get_upload_record_healthy E job st' _ Hconf (Hdb _ _) Hrow'));
    done.
Qed.

(** X7. On a schema without the [s3_result_paths] column (the statements
    that name it are rejected, the others accepted) the two fallbacks
    work together: an accepted callback with a list still stores status
    and primary location, and the status query that follows reads the
    record without the list and answers from the primary location
    alone. *)
Theorem old_schema_falls_back_to_primary (request : WebhookRequest)
    (st : State E) (row : Row) :
  accepted request ->
  table_configured E = true ->
  (forall n q, execute_fails E n q = mentions_paths q) ->
  table st !! the_str (data_job_id request) = Some row ->
  let job := the_str (data_job_id request) in
  let key := the_str (py_or (data_s3_result_path request)
                            (data_s3_result_key request)) in
  let st' := (handle_webhook E request st).2 in
  let urls := presigned E (length (s3_log st')) [VStr key] in
  table st' !! job
  = Some {| user_id := user_id row; processing_status := "COMPLETED";
            s3_result_path := Some key;
            s3_result_paths := s3_result_paths row |}
  /\ s3_log (get_result_status E job st').2 = s3_log st' ++ [VStr key]
  /\ (get_result_status E job st').1
     = Ok {| resp_job_id := job; resp_status := "COMPLETED";
             resp_result_url := head urls;
             resp_result_urls := if is_nil urls then None else Some urls |}.
Proof.
  intros Hacc Hconf Hdb Hrow job key st' urls.
  fold job in Hrow.
  assert (Hjob : str_truthy job = true).
  { apply opt_truthy_the_str. by destruct Hacc as (_ & ? & _). }
  assert (Hkey : str_truthy key = true).
  { apply opt_truthy_the_str. by destruct Hacc as (_ & _ & ?). }
  set (paths := data_s3_result_paths request).
  set (minimal := UpdateStatusPath "COMPLETED" (Some key) job).
  assert (Hrow' : table st' !! job
                  = Some {| user_id := user_id row; processing_status := "COMPLETED";
                            s3_result_path := Some key;
                            s3_result_paths := s3_result_paths row |}).
  { destruct (handle_webhook_database request st Hacc) as [Ht _].
    fold job key st' in Ht. rewrite Ht.
    destruct (list_truthy paths) eqn:Hlist.
    - set (rich := UpdateStatusPathPaths "COMPLETED" key
                     (json_dumps E (default [] paths)) job).
      destruct (persist_completed_run E request job key st rich Hconf) as [_ H];
        [by fold paths; rewrite Hlist |].
      rewrite H by (by rewrite Hdb).
      cbn. by rewrite lookup_alter_eq, Hrow.
    - destruct (persist_completed_run E request job key st minimal Hconf) as [H _];
        [by fold paths; rewrite Hlist |].
      rewrite H by (by rewrite Hdb).
      cbn. by rewrite lookup_alter_eq, Hrow. }
  split; [done |].
  rewrite (get_result_status_of_primary job st'
             (executed (SelectRecord job) (rejected (SelectRecordWithPaths job) st'))
             _ key Hjob
             (get_upload_record_fallback job st' _ Hconf
                ltac:(by rewrite Hdb) ltac:(by rewrite Hdb) Hrow'));
    done.
Qed.

(** ** The status query: what it answers and what it leaves alone *)

Ltac sent_done :=
  split_and!;
  [ rewrite <- ?app_assoc, ?app_nil_r; reflexivity
  | repeat constructor
  | cbn; lia ].

Lemma get_upload_record_footprint job (st : State E) :
  let st0 := (get_upload_record E job st).2 in
  table st0 = table st
  /\ exists sent,
       sql_log st0 = sql_log st ++ sent
       /\ Forall (selects job) sent /\ (length sent <= 2)%nat.
Proof.
  unfold get_upload_record, not_configured.
  destruct (table_configured E); cbn [negb].
  2:{ cbn. split; [done |]. exists []. sent_done. }
  unfold try_catch, bind, raise, ret. rewrite execute_run.
  destruct (execute_fails E _ _).
  - rewrite execute_run. destruct (execute_fails E _ _).
    + cbn. split; [done |].
      exists [SelectRecordWithPaths job; SelectRecord job]. sent_done.
    + cbn [fetchone rejected table]. destruct (table st !! job); cbn;
        (split; [done |];
         exists [SelectRecordWithPaths job; SelectRecord job]; sent_done).
  - cbn [fetchone]. destruct (table st !! job); cbn;
      (split; [done |]; exists [SelectRecordWithPaths job]; sent_done).
Qed.

(** The state the status query ends in: the one its record lookup
    leaves, with the keys it asked URLs for logged. *)
Lemma get_result_status_state job (st : State E) :
  str_truthy job = true ->
  exists keys,
    (get_result_status E job st).2
    = log_presign keys (get_upload_record E job st).2.
Proof.
  intros Hjob. rewrite (get_result_status_run E job st Hjob).
  destruct (get_upload_record E job st) as [[[rec |] | e] st0]; cbn [snd];
    try (exists []; by rewrite log_presign_nil).
  destruct (String.eqb _ _); [| exists []; by rewrite log_presign_nil].
  cbn zeta. destruct (truthy _); [| exists []; by rewrite log_presign_nil].
  destruct (py_iter _) as [ks |]; [by exists ks |].
  exists []. by rewrite log_presign_nil.
Qed.

(** X8. The status query is read-only: whatever the job id, the rows and
    the answers of the collaborators, it leaves the table, the registry
    and the websocket as they were and never calls the manager; the
    only statements it sends are [SELECT]s on the job, at most two. *)
Theorem status_query_is_read_only (job : string) (st : State E) :
  let st' := (get_result_status E job st).2 in
  table st' = table st
  /\ manager st' = manager st
  /\ manager_log st' = manager_log st
  /\ ws_log st' = ws_log st
  /\ exists sent,
       sql_log st' = sql_log st ++ sent
       /\ Forall (selects job) sent /\ (length sent <= 2)%nat.
Proof.
  intros st'. subst st'.
  destruct (str_truthy job) eqn:Hjob.
  - destruct (get_result_status_state job st Hjob) as [keys ->].
    destruct (get_upload_record_footprint job st) as (Ht & Hsent).
    destruct (db_only_get_upload_record E job st) as (_ & Hman & Hlog & Hws & _).
    cbn [log_presign table manager manager_log ws_log sql_log].
    by split_and!.
  - unfold get_result_status. rewrite Hjob. cbn.
    split_and!; try done. exists []. sent_done.
Qed.

(** X9. The shape of a status response: it names the job asked for; its
    URL list is never an empty list (it is null or has a URL); the
    singular URL is the first of the list and is null exactly when the
    list is; and for a status other than COMPLETED both are null. *)
Theorem status_response_is_well_formed (job : string) (st : State E)
    (resp : StatusResponse) :
  (get_result_status E job st).1 = Ok resp ->
  resp_job_id resp = job
  /\ resp_result_urls resp <> Some []
  /\ resp_result_url resp = resp_result_urls resp ≫= head
  /\ (resp_result_url resp = None <-> resp_result_urls resp = None)
  /\ (resp_status resp <> "COMPLETED" ->
      resp_result_url resp = None /\ resp_result_urls resp = None).
Proof.
  destruct (str_truthy job) eqn:Hjob.
  2:{ unfold get_result_status. rewrite Hjob. discriminate. }
  rewrite (get_result_status_run E job st Hjob).
  destruct (get_upload_record E job st) as [[[rec |] | e] st0]; cbn [fst];
    try discriminate.
  destruct (String.eqb_spec (rec_status rec) "COMPLETED") as [Hs | Hs].
  - cbn zeta. destruct (truthy _); [| by intros [= <-]].
    destruct (py_iter _) as [ks |]; [| discriminate].
    destruct (presigned E _ ks) as [| u us]; intros [= <-]; cbn;
      by split_and!.
  - by intros [= <-].
Qed.

(** X10. The errors of the status query. An empty job id is answered 400
    before the database is touched. When the record lookup raises (the
    table name is not configured, or both [SELECT]s are rejected) the
    answer is 500 with the detail "internal error"; when there is no row
    it is 404; neither asks for a URL. No other exception leaves the
    handler, except the [TypeError] of a list field that decodes to
    something that cannot be iterated. *)
Theorem status_query_errors (job : string) (st : State E) :
  let r := get_result_status E job st in
  let lookup := get_upload_record E job st in
  (str_truthy job = false ->
     r = (Raise (HTTPException 400 "job_id is required"), st))
  /\ (str_truthy job = true ->
      (forall e, lookup.1 = Raise e ->
         r = (Raise (HTTPException 500 "internal error"), lookup.2))
      /\ (lookup.1 = Ok None ->
          r = (Raise (HTTPException 404 "job not found"), lookup.2)))
  /\ (forall e, r.1 = Raise e ->
        e = HTTPException 400 "job_id is required"
        \/ e = HTTPException 500 "internal error"
        \/ e = HTTPException 404 "job not found"
        \/ e = PyException "TypeError: object is not iterable").
Proof.
  intros r lookup. subst r lookup.
  destruct (str_truthy job) eqn:Hjob.
  - rewrite (get_result_status_run E job st Hjob).
    destruct (get_upload_record E job st) as [[[rec |] | e0] st0]; cbn [fst snd].
    + split_and!; [done | split; [intros e [=] | intros [=]] |].
      destruct (String.eqb _ _); [| intros e [=]].
      cbn zeta. destruct (truthy _); [| intros e [=]].
      destruct (py_iter _); intros e [= <-]. auto.
    + split_and!; [done | split; [intros e [=] | done] | intros e [= <-]; auto].
    + split_and!; [done | split; [done | intros [=]] | intros e [= <-]; auto].
  - unfold get_result_status. rewrite Hjob. cbn.
    split_and!; [done | done | intros e [= <-]; auto].
Qed.

(** X11. What the status query iterates over when the list field is a
    non-empty string that decodes to a JSON value other than a list. A
    value that is empty or null counts as no location at all, and the
    stored primary location is not used in its place; a JSON string is
    taken character by character and an object key by key, a URL being
    asked for each; a non-zero number or [true] makes the loop raise
    before any URL is asked. *)
Theorem status_query_on_decoded_value (job : string) (st : State E)
    (rec : UploadRecord) (s : string) (v : pyval) :
  str_truthy job = true ->
  (get_upload_record E job st).1 = Ok (Some rec) ->
  rec_status rec = "COMPLETED" ->
  rec_s3_result_paths rec = VStr s ->
  str_truthy s = true ->
  json_loads E s = Some v ->
  let r := get_result_status E job st in
  (truthy v = false ->
     s3_log r.2 = s3_log st
     /\ r.1 = Ok {| resp_job_id := job; resp_status := "COMPLETED";
                    resp_result_url := None; resp_result_urls := None |})
  /\ (truthy v = true -> forall keys, py_iter v = Some keys ->
      s3_log r.2 = s3_log st ++ keys)
  /\ (forall t, v = VStr t -> truthy v = true ->
      s3_log r.2 = s3_log st ++ (VStr <$> py_chars t))
  /\ (forall d, v = VDict d -> truthy v = true ->
      s3_log r.2 = s3_log st ++ ((fun kv => VStr kv.1) <$> d))
  /\ (truthy v = true -> py_iter v = None ->
      s3_log r.2 = s3_log st
      /\ r.1 = Raise (PyException "TypeError: object is not iterable")).
Proof.
  intros Hjob Hrec Hstatus Hpaths Hs Hloads r. subst r.
  rewrite (get_result_status_run E job st Hjob).
  pose proof (get_upload_record_frame E job st) as Hs3.
  destruct (get_upload_record E job st) as [r0 st0]. cbn in Hrec, Hs3. subst r0.
  rewrite Hstatus, Hpaths. cbn [String.eqb Ascii.eqb Bool.eqb].
  unfold status_keys. cbn [truthy]. rewrite Hs, Hloads.
  assert (Hiter : truthy v = true -> forall keys, py_iter v = Some keys ->
            s3_log (let none := (Ok {| resp_job_id := job; resp_status := "COMPLETED";
                                       resp_result_url := None;
                                       resp_result_urls := None |}, st0) in
                    if truthy v then
                      match py_iter v with
                      | Some ks =>
                          let urls := presigned E (length (s3_log st)) ks in
                          (Ok {| resp_job_id := job; resp_status := "COMPLETED";
                                 resp_result_url := head urls;
                                 resp_result_urls :=
                                   if is_nil urls then None else Some urls |},
                           log_presign ks st0)
                      | None =>
                          (Raise (PyException "TypeError: object is not iterable"),
                           st0)
                      end
                    else none).2 = s3_log st ++ keys).
  { intros -> keys ->. cbn. by rewrite Hs3. }
  split_and!.
  - intros ->. by cbn.
  - exact Hiter.
  - intros t -> Ht. by apply Hiter.
  - intros d -> Hd. by apply Hiter.
  - intros -> ->. by cbn.
Qed.

(** ** The methods of [DBClient] *)

(** X12. [update_upload_status] returns normally exactly when the table
    name is configured and the server accepts its first statement or,
    after rejecting it, the status-only statement. On a normal return
    the job's row has the status; the primary location is written only
    if the first statement was accepted: after a rejected first
    statement the call still returns normally with the location not
    stored. The owner and the list field are never touched, and a call
    that raises leaves the table as it was. *)
Theorem update_upload_status_outcome (job status : string)
    (path : option string) (st : State E) :
  let n := length (sql_log st) in
  let first := match path with
               | Some p => UpdateStatusPath status (Some p) job
               | None => UpdateStatus status job
               end in
  let r := update_upload_status E job status path st in
  (r.1 = Ok tt <->
   table_configured E = true
   /\ (execute_fails E n first = false
       \/ execute_fails E (S n) (UpdateStatus status job) = false))
  /\ (forall row, table st !! job = Some row -> r.1 = Ok tt ->
      table r.2 !! job
      = Some {| user_id := user_id row; processing_status := status;
                s3_result_path :=
                  if execute_fails E n first then s3_result_path row
                  else match path with
                       | Some p => Some p
                       | None => s3_result_path row
                       end;
                s3_result_paths := s3_result_paths row |})
  /\ (r.1 <> Ok tt -> table r.2 = table st).
Proof.
  intros n first r. subst r.
  unfold update_upload_status, not_configured.
  destruct (table_configured E); cbn [negb].
  2:{ cbn. split_and!; [split; [discriminate | by intros [? _]] | discriminate | done]. }
  assert (Hfirst : match path with
                   | Some p => execute E (UpdateStatusPath status (Some p) job)
                   | None => execute E (UpdateStatus status job)
                   end = execute E first) by (by destruct path).
  rewrite Hfirst. unfold try_catch, bind, raise, ret. rewrite execute_run.
  fold n. destruct (execute_fails E n first) eqn:H1.
  - rewrite execute_run, length_sql_log_rejected. fold n.
    destruct (execute_fails E (S n) (UpdateStatus status job)) eqn:H2; cbn.
    + split_and!; [split; [discriminate | intros [_ [? | ?]]; discriminate]
                  | discriminate | done].
    + split_and!; [split; [auto | done] | | done].
      intros row Hrow _. by rewrite lookup_alter_eq, Hrow.
  - cbn. split_and!; [split; [auto | done] | | done].
    intros row Hrow _. subst first.
    destruct path; cbn; by rewrite lookup_alter_eq, Hrow.
Qed.

(** X13. [update_upload_status_with_paths] returns normally exactly when
    the table name is configured and the server accepts its first
    statement or, after rejecting it, the statement that writes status
    and primary location. On a normal return the job's row has the
    status; a primary location that was passed is stored in either case;
    the list is stored only if the first statement was accepted. When
    the method is called without a primary location and falls back, the
    fallback writes [NULL] over the stored primary location. A call
    that raises leaves the table as it was. *)
Theorem update_upload_status_with_paths_outcome (job status : string)
    (path paths : option string) (st : State E) :
  let n := length (sql_log st) in
  let first := match paths, path with
               | Some ps, Some p => UpdateStatusPathPaths status p ps job
               | Some ps, None => UpdateStatusPaths status ps job
               | None, Some p => UpdateStatusPath status (Some p) job
               | None, None => UpdateStatus status job
               end in
  let second := UpdateStatusPath status path job in
  let r := update_upload_status_with_paths E job status path paths st in
  (r.1 = Ok tt <->
   table_configured E = true
   /\ (execute_fails E n first = false \/ execute_fails E (S n) second = false))
  /\ (forall row, table st !! job = Some row -> r.1 = Ok tt ->
      table r.2 !! job
      = Some {| user_id := user_id row; processing_status := status;
                s3_result_path :=
                  if execute_fails E n first then path
                  else match path with
                       | Some p => Some p
                       | None => s3_result_path row
                       end;
                s3_result_paths :=
                  if execute_fails E n first then s3_result_paths row
                  else match paths with
                       | Some ps => VStr ps
                       | None => s3_result_paths row
                       end |})
  /\ (r.1 <> Ok tt -> table r.2 = table st).
Proof.
  intros n first second r. subst r.
  unfold update_upload_status_with_paths, not_configured.
  destruct (table_configured E); cbn [negb].
  2:{ cbn. split_and!; [split; [discriminate | by intros [? _]] | discriminate | done]. }
  assert (Hfirst : match paths, path with
                   | Some ps, Some p =>
                       execute E (UpdateStatusPathPaths status p ps job)
                   | Some ps, None => execute E (UpdateStatusPaths status ps job)
                   | None, Some p => execute E (UpdateStatusPath status (Some p) job)
                   | None, None => execute E (UpdateStatus status job)
                   end = execute E first) by (by destruct paths, path).
  rewrite Hfirst. unfold try_catch, bind, raise, ret. rewrite execute_run.
  fold n. destruct (execute_fails E n first) eqn:H1.
  - rewrite execute_run, length_sql_log_rejected. fold n second.
    destruct (execute_fails E (S n) second) eqn:H2; cbn.
    + split_and!; [split; [discriminate | intros [_ [? | ?]]; discriminate]
                  | discriminate | done].
    + split_and!; [split; [auto | done] | | done].
      intros row Hrow _. by rewrite lookup_alter_eq, Hrow.
  - cbn. split_and!; [split; [auto | done] | | done].
    intros row Hrow _. subst first.
    destruct paths, path; cbn; by rewrite lookup_alter_eq, Hrow.
Qed.

(** X14. [get_upload_record] answers from the table and does not change
    it. A record it returns is the job's row: same owner, status and
    primary location, under the job id asked for; its list field is the
    row's when the first [SELECT] was accepted and null when the method
    fell back to the [SELECT] without that column. It returns [None]
    only when the job has no row, and it raises exactly when the table
    name is not configured or both statements are rejected. *)
Theorem get_upload_record_reads_the_row (job : string) (st : State E) :
  let n := length (sql_log st) in
  let full := execute_fails E n (SelectRecordWithPaths job) in
  let r := get_upload_record E job st in
  table r.2 = table st
  /\ (forall rec, r.1 = Ok (Some rec) ->
      exists row,
        table st !! job = Some row
        /\ rec = {| rec_job_id := job; rec_user_id := user_id row;
                    rec_status := processing_status row;
                    rec_s3_result_path := s3_result_path row;
                    rec_s3_result_paths :=
                      if full then VNone else s3_result_paths row |})
  /\ (r.1 = Ok None -> table st !! job = None)
  /\ ((exists e, r.1 = Raise e) <->
      table_configured E = false
      \/ (full = true /\ execute_fails E (S n) (SelectRecord job) = true)).
Proof.
  intros n full r. subst r full.
  split; [apply get_upload_record_footprint |].
  unfold get_upload_record, not_configured.
  destruct (table_configured E); cbn [negb].
  2:{ cbn. split_and!; [discriminate | discriminate | split; eauto]. }
  unfold try_catch, bind, raise, ret. rewrite execute_run. fold n.
  destruct (execute_fails E n (SelectRecordWithPaths job)) eqn:H1.
  - rewrite execute_run, length_sql_log_rejected. fold n.
    destruct (execute_fails E (S n) (SelectRecord job)) eqn:H2.
    + cbn. split_and!; [discriminate | discriminate | split; eauto].
    + cbn [fetchone rejected table]. destruct (table st !! job) as [row |]; cbn.
      * split_and!; [intros rec [= <-]; eauto | discriminate |].
        split; [intros [e [=]] | intros [[=] | [_ [=]]]].
      * split_and!; [discriminate | done |].
        split; [intros [e [=]] | intros [[=] | [_ [=]]]].
  - cbn [fetchone]. destruct (table st !! job) as [row |]; cbn.
    + split_and!; [intros rec [= <-]; eauto | discriminate |].
      split; [intros [e [=]] | intros [[=] | [[=] _]]].
    + split_and!; [discriminate | done |].
      split; [intros [e [=]] | intros [[=] | [[=] _]]].
Qed.

(** X15. [get_job_owner] sends one [SELECT] and does not retry: it raises
    exactly when the table name is not configured or that statement is
    rejected. Otherwise it returns the owner of the job's row, and
    [None] both when the job has no row and when its row has no owner. *)
Theorem get_job_owner_reads_the_owner (job : string) (st : State E) :
  let r := get_job_owner E job st in
  let accepted_select :=
    table_configured E = true
    /\ execute_fails E (length (sql_log st)) (SelectOwner job) = false in
  table r.2 = table st
  /\ (forall owner, r.1 = Ok owner ->
      accepted_select /\ owner = table st !! job ≫= user_id)
  /\ (r.1 = Ok None <->
      accepted_select
      /\ (table st !! job = None
          \/ exists row, table st !! job = Some row /\ user_id row = None))
  /\ ((exists e, r.1 = Raise e) <-> ~ accepted_select).
Proof.
  intros r accepted_select. subst r accepted_select.
  unfold get_job_owner, not_configured.
  destruct (table_configured E); cbn [negb].
  2:{ cbn. split_and!; [done | discriminate | | ].
      - split; [discriminate | by intros [[? _] _]].
      - split; [by intros _ [? _] | eauto]. }
  unfold bind, ret. rewrite execute_run.
  destruct (execute_fails E _ _) eqn:Hf.
  - cbn. split_and!; [done | discriminate | |].
    + split; [discriminate | by intros [[_ ?] _]].
    + split; [by intros _ [_ ?] | eauto].
  - cbn [fetchone]. destruct (table st !! job) as [row |] eqn:Hrow; cbn.
    + split_and!; [done | by intros owner [= <-] | |].
      * split.
        -- intros [= Hnone]. split; [done |]. right. by exists row.
        -- intros [_ [[=] | (row' & [= <-] & Hnone)]]. by rewrite Hnone.
      * split; [intros [e [=]] | intros H; destruct H; done].
    + split_and!; [done | by intros owner [= <-] | |].
      * split; [auto | done].
      * split; [intros [e [=]] | intros H; destruct H; done].
Qed.

(** ** The registration handshake, whatever the client sends *)

Lemma cleanup_run (e : exn) (st : State E) :
  cleanup E e st
  = if opt_truthy (temp_id st) then disconnect E (the_str (temp_id st)) st
    else (Ok tt, st).
Proof.
  destruct e; unfold cleanup, bind, get_temp_id, ret; cbn;
    by destruct (opt_truthy (temp_id st)).
Qed.

(** A first frame that is not a well-formed registration. *)
Lemma handshake_malformed_run websocket frames (st : State E) :
  valid_register frames = None ->
  websocket_preconnect E websocket frames st
  = (Ok tt,
     {| table := table st; sql_log := sql_log st; s3_log := s3_log st;
        manager := manager st; manager_log := manager_log st;
        ws_log :=
          ws_log st
          ++ WsAccept
             :: match frames with
                | FrameNotJson :: _ =>
                    [WsSendJson (ErrorPayload "invalid_json"); WsClose 1003]
                | FrameObject _ _ :: _ =>
                    [WsSendJson (ErrorPayload "expected register with job_id");
                     WsClose 1003]
                | _ => []
                end;
        temp_id := None |}).
Proof.
  intros Hvalid. unfold websocket_preconnect.
  destruct frames as [| [| | action job] rest]; cbn in Hvalid |- *.
  - reflexivity.
  - by rewrite <- !app_assoc.
  - reflexivity.
  - destruct (bool_decide (action = Some "register") && opt_truthy job);
      [discriminate |].
    cbn. by rewrite <- !app_assoc.
Qed.

(** A well-formed registration, by the outcome of the owner lookup. *)
Lemma handshake_register_run websocket job rest (st : State E) :
  str_truthy job = true ->
  let r := websocket_preconnect E websocket
             (FrameObject (Some "register") (Some job) :: rest) st in
  let lookup := get_job_owner E job st in
  r.1 = Ok tt
  /\ table r.2 = table lookup.2
  /\ sql_log r.2 = sql_log lookup.2
  /\ s3_log r.2 = s3_log st
  /\ match lookup.1 with
     | Raise _ =>
         ws_log r.2 = ws_log st ++ [WsAccept]
         /\ manager_log r.2 = manager_log st ++ [CallDisconnect job]
         /\ manager r.2 = manager_disconnect E job (manager st)
     | Ok None =>
         ws_log r.2
         = ws_log st ++ [WsAccept; WsSendJson (ErrorPayload "job_not_found");
                         WsClose 1008]
         /\ manager_log r.2 = manager_log st
         /\ manager r.2 = manager st
     | Ok (Some owner) =>
         if bool_decide (resolve_user E (extract_token websocket) = Some owner)
         then
           ws_log r.2
           = ws_log st ++ [WsAccept; WsSendJson (RegisteredPayload job)]
           /\ manager_log r.2
              = manager_log st ++ [CallConnect job (ws_handle websocket) owner;
                                   CallDisconnect job]
           /\ manager r.2
              = manager_disconnect E job
                  (manager_connect E job (ws_handle websocket) owner (manager st))
         else
           ws_log r.2
           = ws_log st ++ [WsAccept; WsSendJson (ErrorPayload "forbidden");
                           WsClose 1008]
           /\ manager_log r.2 = manager_log st
           /\ manager r.2 = manager st
     end.
Proof.
  intros Hjob r lookup.
  pose proof (websocket_register_run E websocket job rest st Hjob) as Hrun.
  destruct (get_job_owner_in_handshake E job st) as (Hres & Hman & Hlog & Hws & Htid).
  destruct (blind_get_job_owner E job (opened job st) st) as (_ & Ht & Hq & _);
    [by repeat split |].
  pose proof (db_only_get_job_owner E job (opened job st)) as (Hs3 & _).
  unfold try_catch, bind at 1 in Hrun.
  subst lookup.
  destruct (get_job_owner E job (opened job st)) as [r0 st0].
  cbn [fst snd] in *. subst r0. subst r. rewrite Hrun. clear Hrun.
  destruct (get_job_owner E job st) as [[[owner |] | e] st1]; cbn [fst snd] in *.
  - destruct (resolve_user E (extract_token websocket)) as [user |].
    + destruct (String.eqb_spec user owner) as [-> | Hne].
      * rewrite bool_decide_eq_true_2 by done. cbn [negb].
        unfold bind, connect, call_manager, send_json, ws_emit.
        rewrite receive_forever_run, cleanup_run. cbn. rewrite Htid. cbn.
        rewrite Hjob. cbn.
        rewrite Hman, Hlog, Hws, <- !app_assoc. by split_and!.
      * rewrite bool_decide_eq_false_2 by congruence.
        cbn. rewrite Hws, <- !app_assoc. by split_and!.
    + rewrite bool_decide_eq_false_2 by done.
      cbn. rewrite Hws, <- !app_assoc. by split_and!.
  - cbn. rewrite Hws, <- !app_assoc. by split_and!.
  - rewrite cleanup_run, Htid. cbn. rewrite Hjob. cbn.
    rewrite Hman, Hlog, Hws. by split_and!.
Qed.

Lemma valid_register_inv (frames : list Frame) (job : string) :
  valid_register frames = Some job ->
  str_truthy job = true
  /\ exists rest, frames = FrameObject (Some "register") (Some job) :: rest.
Proof.
  destruct frames as [| [| | action j] rest]; try discriminate. cbn.
  destruct (bool_decide_reflect (action = Some "register")) as [-> |];
    [| discriminate].
  destruct j as [j |]; cbn; [| discriminate].
  destruct (str_truthy j) eqn:Hj; [| discriminate].
  intros [= <-]. eauto.
Qed.

Lemma get_job_owner_log job (st : State E) :
  let st0 := (get_job_owner E job st).2 in
  table st0 = table st
  /\ (sql_log st0 = sql_log st \/ sql_log st0 = sql_log st ++ [SelectOwner job]).
Proof.
  unfold get_job_owner, not_configured.
  destruct (table_configured E); cbn [negb]; [| cbn; auto].
  unfold bind, ret. rewrite execute_run.
  destruct (execute_fails E _ _); [cbn; auto |].
  cbn [fetchone]. destruct (table st !! job); cbn; auto.
Qed.

Lemma get_job_owner_returns job (st : State E) owner :
  (get_job_owner E job st).1 = Ok owner ->
  owner = table st !! job ≫= user_id.
Proof.
  unfold get_job_owner, not_configured.
  destruct (table_configured E); cbn [negb]; [| discriminate].
  unfold bind, ret. rewrite execute_run.
  destruct (execute_fails E _ _); [discriminate |].
  cbn [fetchone]. destruct (table st !! job); cbn; congruence.
Qed.

(** X16. A first message that is not a registration with a job id never
    reaches the credential, the database or the manager: the handler
    returns normally, reads and writes no row, calls nothing on the
    manager and answers the same whatever the connection carries. Text
    that is not JSON and an object of the wrong shape get an error
    payload and a close with code 1003; JSON that is not an object, and a
    client that leaves before sending anything, get nothing after the
    accept. *)
Theorem malformed_registration_touches_nothing websocket frames (st : State E) :
  valid_register frames = None ->
  let r := websocket_preconnect E websocket frames st in
  r.1 = Ok tt
  /\ table r.2 = table st /\ sql_log r.2 = sql_log st /\ s3_log r.2 = s3_log st
  /\ manager r.2 = manager st /\ manager_log r.2 = manager_log st
  /\ (forall websocket', websocket_preconnect E websocket' frames st = r)
  /\ exists reply,
       ws_log r.2 = ws_log st ++ WsAccept :: reply
       /\ match frames with
          | [] | FrameNotObject :: _ => reply = []
          | FrameNotJson :: _ =>
              reply = [WsSendJson (ErrorPayload "invalid_json"); WsClose 1003]
          | FrameObject _ _ :: _ =>
              reply = [WsSendJson (ErrorPayload "expected register with job_id");
                       WsClose 1003]
          end.
Proof.
  intros Hvalid r. subst r.
  rewrite (handshake_malformed_run websocket frames st Hvalid). cbn [fst snd].
  split_and!; try done.
  - intros websocket'. by apply handshake_malformed_run.
  - eexists. split; [reflexivity |].
    by destruct frames as [| [| | action job] rest].
Qed.

(** X17. When the owner lookup of a registration raises, the handler
    swallows the exception and sends the client neither a payload nor a
    close; but it calls [disconnect] for the requested job, although this
    connection was never registered for it, so that the manager is left
    as [disconnect] makes it. *)
Theorem failed_owner_lookup_disconnects_the_job
    websocket job rest (st : State E) e :
  str_truthy job = true ->
  (get_job_owner E job st).1 = Raise e ->
  let r := websocket_preconnect E websocket
             (FrameObject (Some "register") (Some job) :: rest) st in
  r.1 = Ok tt
  /\ ws_log r.2 = ws_log st ++ [WsAccept]
  /\ manager_log r.2 = manager_log st ++ [CallDisconnect job]
  /\ manager r.2 = manager_disconnect E job (manager st)
  /\ table r.2 = table st.
Proof.
  intros Hjob Hraise r.
  destruct (handshake_register_run websocket job rest st Hjob)
    as (Hok & Ht & _ & _ & Hcase).
  destruct (get_job_owner_log job st) as [Htable _].
  rewrite Hraise in Hcase. destruct Hcase as (Hws & Hlog & Hman).
  subst r. split_and!; try done. by rewrite Ht.
Qed.

(** X18. Whatever the connection carries and whatever the client sends,
    the handler calls [connect] only for the job named by a well-formed
    registration, only with this connection, and only with a user that
    the verifier derives from the connection's token and that the owner
    lookup returns for the job, which is the owner stored in the job's
    row. *)
Theorem handshake_connects_only_the_owner
    websocket frames (st : State E) calls job c user :
  let r := websocket_preconnect E websocket frames st in
  manager_log r.2 = manager_log st ++ calls ->
  CallConnect job c user ∈ calls ->
  valid_register frames = Some job
  /\ c = ws_handle websocket
  /\ resolve_user E (extract_token websocket) = Some user
  /\ (get_job_owner E job st).1 = Ok (Some user)
  /\ table st !! job ≫= user_id = Some user.
Proof.
  intros r Hlog Hin. subst r.
  destruct (valid_register frames) as [job' |] eqn:Hvalid.
  2:{ rewrite (handshake_malformed_run websocket frames st Hvalid) in Hlog.
      cbn in Hlog. rewrite <- (app_nil_r (manager_log st)) in Hlog at 1.
      apply app_inv_head in Hlog. subst calls. by apply elem_of_nil in Hin. }
  destruct (valid_register_inv frames job' Hvalid) as (Hjob & rest & ->).
  destruct (handshake_register_run websocket job' rest st Hjob)
    as (_ & _ & _ & _ & Hcase).
  destruct (get_job_owner E job' st).1 as [[owner |] | e] eqn:Hlookup.
  - destruct (bool_decide_reflect
                (resolve_user E (extract_token websocket) = Some owner))
      as [Huser | Hno]; destruct Hcase as (_ & Hlog' & _).
    + rewrite Hlog' in Hlog. apply app_inv_head in Hlog. subst calls.
      rewrite !elem_of_cons, elem_of_nil in Hin.
      destruct Hin as [[= -> -> ->] | [[=] | []]].
      split_and!; try done.
      symmetry. by apply get_job_owner_returns.
    + rewrite Hlog' in Hlog. rewrite <- (app_nil_r (manager_log st)) in Hlog at 1.
      apply app_inv_head in Hlog. subst calls. by apply elem_of_nil in Hin.
  - destruct Hcase as (_ & Hlog' & _).
    rewrite Hlog' in Hlog. rewrite <- (app_nil_r (manager_log st)) in Hlog at 1.
    apply app_inv_head in Hlog. subst calls. by apply elem_of_nil in Hin.
  - destruct Hcase as (_ & Hlog' & _).
    rewrite Hlog' in Hlog. apply app_inv_head in Hlog. subst calls.
    rewrite !elem_of_cons, elem_of_nil in Hin.
    by destruct Hin as [[=] | []].
Qed.

(** X19. The footprint of the handshake on every input: the handler
    always returns normally, first accepts the connection, changes no row
    and asks for no URL; it sends the database nothing, or the one owner
    query for the job of a well-formed registration; and its calls to the
    manager are none, a lone [disconnect] of that job, or a [connect] of
    this connection for that job followed by the [disconnect] of the same
    job. *)
Theorem handshake_footprint websocket frames (st : State E) :
  let r := websocket_preconnect E websocket frames st in
  r.1 = Ok tt
  /\ table r.2 = table st
  /\ s3_log r.2 = s3_log st
  /\ (exists events, ws_log r.2 = ws_log st ++ WsAccept :: events)
  /\ (sql_log r.2 = sql_log st
      \/ exists job, valid_register frames = Some job
                     /\ sql_log r.2 = sql_log st ++ [SelectOwner job])
  /\ exists calls,
       manager_log r.2 = manager_log st ++ calls
       /\ (calls = []
           \/ exists job, valid_register frames = Some job
                          /\ handshake_calls job (ws_handle websocket) calls).
Proof.
  intros r. subst r.
  destruct (valid_register frames) as [job |] eqn:Hvalid.
  2:{ rewrite (handshake_malformed_run websocket frames st Hvalid).
      cbn [fst snd ws_log sql_log manager_log table s3_log].
      split_and!; eauto.
      exists []. by rewrite app_nil_r; auto. }
  destruct (valid_register_inv frames job Hvalid) as (Hjob & rest & ->).
  destruct (handshake_register_run websocket job rest st Hjob)
    as (Hok & Ht & Hq & Hs3 & Hcase).
  destruct (get_job_owner_log job st) as [Htable Hsql].
  split_and!; [done | by rewrite Ht | done | | |].
  - destruct (get_job_owner E job st).1 as [[owner |] | e].
    + destruct (bool_decide _); destruct Hcase as (-> & _); eauto.
    + destruct Hcase as (-> & _); eauto.
    + destruct Hcase as (-> & _); eauto.
  - rewrite Hq. destruct Hsql as [-> | ->]; eauto.
  - unfold handshake_calls.
    destruct (get_job_owner E job st).1 as [[owner |] | e].
    + destruct (bool_decide _); destruct Hcase as (_ & -> & _).
      * eexists. split; [reflexivity |]. right. exists job. eauto 6.
      * exists []. by rewrite app_nil_r; auto.
    + destruct Hcase as (_ & -> & _). exists []. by rewrite app_nil_r; auto.
    + destruct Hcase as (_ & -> & _).
      eexists. split; [reflexivity |]. right. exists job. eauto.
Qed.

(** ** The token of a connection *)

Lemma py_split_comma_0_app (a b : string) :
  py_split_comma_0 (String.append a (String "," b)) = py_split_comma_0 a.
Proof.
  induction a as [| c a IH]; simpl; [reflexivity |].
  destruct (Ascii.eqb c ","); [reflexivity | by rewrite IH].
Qed.

Lemma py_split_comma_0_chars (s : string) :
  ","%char ∉ list_ascii_of_string (py_split_comma_0 s).
Proof.
  induction s as [| c s IH]; cbn; [apply not_elem_of_nil |].
  destruct (Ascii.eqb_spec c ","); cbn; [apply not_elem_of_nil |].
  rewrite not_elem_of_cons. split; [congruence | done].
Qed.

Lemma py_lstrip_chars (s : string) (c : ascii) :
  c ∈ list_ascii_of_string (py_lstrip s) -> c ∈ list_ascii_of_string s.
Proof.
  induction s as [| d s IH]; cbn; [done |].
  destruct (py_isspace d); [| done].
  intros Hin. apply elem_of_cons. right. auto.
Qed.

Lemma py_rstrip_chars (s : string) (c : ascii) :
  c ∈ list_ascii_of_string (py_rstrip s) -> c ∈ list_ascii_of_string s.
Proof.
  induction s as [| d s IH]; cbn; [done |].
  destruct (py_rstrip s) as [| k kept].
  - destruct (py_isspace d); cbn.
    + by intros ?%elem_of_nil.
    + rewrite !elem_of_cons. intros [-> | Hin]; [by left |].
      by apply elem_of_nil in Hin.
  - cbn. rewrite !elem_of_cons. intros [-> | Hin]; [by left |].
    right. apply IH. by apply elem_of_cons.
Qed.

Lemma py_rstrip_idem (s : string) : py_rstrip (py_rstrip s) = py_rstrip s.
Proof.
  induction s as [| d s IH]; cbn; [reflexivity |].
  destruct (py_rstrip s) as [| k kept] eqn:Hkept.
  - destruct (py_isspace d) eqn:Hd; cbn; [reflexivity | by rewrite Hd].
  - change (py_rstrip (String d (String k kept))) with
      (match py_rstrip (String k kept) with
       | EmptyString =>
           if py_isspace d then EmptyString else String d EmptyString
       | kept' => String d kept'
       end).
    by rewrite IH.
Qed.

(** A string that does not start with whitespace. *)
Lemma py_lstrip_rstrip (s : string) :
  py_lstrip s = s -> py_lstrip (py_rstrip s) = py_rstrip s.
Proof.
  destruct s as [| d s]; [done |].
  cbn [py_lstrip]. destruct (py_isspace d) eqn:Hd.
  - intros Hs. exfalso.
    assert (forall t, String.length (py_lstrip t) <= String.length t)%nat as Hlen.
    { induction t as [| e t IH]; cbn; [lia |]. destruct (py_isspace e); cbn; lia. }
    specialize (Hlen s). rewrite Hs in Hlen. cbn in Hlen. lia.
  - intros _. cbn [py_rstrip].
    destruct (py_rstrip s); rewrite ?Hd; cbn; by rewrite Hd.
Qed.

Lemma py_lstrip_idem (s : string) : py_lstrip (py_lstrip s) = py_lstrip s.
Proof.
  induction s as [| d s IH]; cbn; [reflexivity |].
  destruct (py_isspace d) eqn:Hd; [done | cbn; by rewrite Hd].
Qed.

Lemma py_strip_fixed (s : string) :
  py_lstrip (py_strip s) = py_strip s /\ py_rstrip (py_strip s) = py_strip s.
Proof.
  unfold py_strip. split.
  - apply py_lstrip_rstrip, py_lstrip_idem.
  - apply py_rstrip_idem.
Qed.

(** X20. A subprotocol header whose first comma-separated item is not
    blank decides the token alone: the token is that item without the
    whitespace around it, whatever the query string and the cookies
    carry and whatever follows the first comma. The token has no comma
    and no whitespace left to strip at either end. *)
Theorem subprotocol_token_is_first_item (websocket : WebSocket) (proto : string) :
  let token := py_strip (py_split_comma_0 proto) in
  header_sec_websocket_protocol websocket = Some proto ->
  str_truthy token = true ->
  extract_token websocket = Some token
  /\ (","%char ∉ list_ascii_of_string token)
  /\ py_lstrip token = token /\ py_rstrip token = token
  /\ forall websocket' more,
       header_sec_websocket_protocol websocket'
       = Some (String.append proto (String "," more)) ->
       extract_token websocket' = Some token.
Proof.
  intros token Hproto Htoken.
  assert (forall w p, header_sec_websocket_protocol w = Some p ->
                      py_strip (py_split_comma_0 p) = token ->
                      extract_token w = Some token) as Hextract.
  { intros w p Hp Hstrip. unfold extract_token. rewrite Hp.
    cbn [opt_truthy the_str default from_option id].
    destruct (str_truthy p) eqn:Htruthy.
    - rewrite Hstrip. cbn [opt_truthy]. rewrite Htoken. cbn [negb opt_truthy].
      by rewrite Htoken.
    - exfalso. unfold str_truthy in Htruthy.
      apply negb_false_iff, String.eqb_eq in Htruthy. subst p.
      rewrite <- Hstrip in Htoken. discriminate. }
  split_and!.
  - by apply (Hextract websocket proto).
  - intros Hin. apply py_rstrip_chars, py_lstrip_chars in Hin.
    by apply py_split_comma_0_chars in Hin.
  - apply py_strip_fixed.
  - apply py_strip_fixed.
  - intros w more Hw. apply (Hextract w _ Hw).
    by rewrite py_split_comma_0_app.
Qed.

Ltac token_cases query id_cookie access_cookie :=
  destruct (opt_truthy query) eqn:Hquery;
  destruct (opt_truthy id_cookie) eqn:Hid;
  destruct (opt_truthy access_cookie) eqn:Haccess;
  cbn [negb]; rewrite ?Hquery, ?Hid, ?Haccess; cbn [negb];
  rewrite ?Hquery, ?Hid, ?Haccess;
  repeat match goal with
    | H : opt_truthy ?c = true |- _ => is_var c; destruct c; [| discriminate H]
    end;
  reflexivity.

(** The nested fallbacks of [extract_token] as a priority list; with no
    usable candidate the value of the query parameter is what is left. *)
Lemma extract_token_run (websocket : WebSocket) :
  extract_token websocket
  = match first_nonempty (token_candidates websocket) with
    | Some token => Some token
    | None => query_token websocket
    end.
Proof.
  destruct websocket as [h proto query id_cookie access_cookie].
  unfold extract_token, token_candidates, py_or.
  cbn [header_sec_websocket_protocol query_token cookie_id_token
       cookie_access_token].
  assert (opt_truthy proto = false ->
          (fun p => py_strip (py_split_comma_0 p)) <$> proto = None
          \/ (fun p => py_strip (py_split_comma_0 p)) <$> proto
             = Some EmptyString) as Hblank.
  { destruct proto as [p |]; [| by left]. cbn [opt_truthy]. unfold str_truthy.
    intros Hp. apply negb_false_iff, String.eqb_eq in Hp. subst p. by right. }
  destruct (opt_truthy proto) eqn:Hproto.
  - destruct proto as [p |]; [| discriminate].
    cbn [fmap option_fmap option_map the_str default from_option id
         first_nonempty opt_truthy].
    generalize (py_strip (py_split_comma_0 p)). intros first. clear.
    destruct (str_truthy first) eqn:Hfirst; cbn [negb opt_truthy];
      rewrite ?Hfirst; cbn [negb]; [reflexivity |].
    token_cases query id_cookie access_cookie.
  - destruct (Hblank eq_refl) as [-> | ->]; clear;
      cbn [first_nonempty opt_truthy str_truthy String.eqb negb].
    + token_cases query id_cookie access_cookie.
    + token_cases query id_cookie access_cookie.
Qed.

Lemma first_nonempty_spec (candidates : list (option string)) :
  match first_nonempty candidates with
  | Some token => str_truthy token = true
  | None => Forall (fun c => opt_truthy c = false) candidates
  end.
Proof.
  induction candidates as [| c rest IH]; cbn [first_nonempty]; [constructor |].
  destruct (opt_truthy c) eqn:Hc.
  - destruct c as [token |]; [exact Hc | discriminate].
  - destruct (first_nonempty rest); [exact IH | by constructor].
Qed.

(** With no usable candidate there is no token to verify. *)
Lemma no_candidate_no_token (websocket : WebSocket) :
  first_nonempty (token_candidates websocket) = None ->
  opt_truthy (extract_token websocket) = false.
Proof.
  intros Hnone. rewrite extract_token_run, Hnone.
  pose proof (first_nonempty_spec (token_candidates websocket)) as Hall.
  rewrite Hnone in Hall. unfold token_candidates in Hall.
  apply Forall_cons in Hall as [_ Hall]. by apply Forall_cons in Hall as [? _].
Qed.

(** X21. The nested fallbacks of the token lookup amount to a priority
    list: the token is the first non-empty candidate among the first
    subprotocol item, the query parameter, the [id_token] cookie and the
    [access_token] cookie. When all four are absent or empty the lookup
    yields nothing usable and no user is resolved. *)
Theorem token_is_first_nonempty_candidate (websocket : WebSocket) :
  (forall token,
     first_nonempty (token_candidates websocket) = Some token ->
     extract_token websocket = Some token /\ str_truthy token = true)
  /\ (first_nonempty (token_candidates websocket) = None ->
      opt_truthy (extract_token websocket) = false
      /\ resolve_user E (extract_token websocket) = None).
Proof.
  split.
  - intros token Hfirst.
    pose proof (first_nonempty_spec (token_candidates websocket)) as Htruthy.
    rewrite Hfirst in Htruthy.
    by rewrite extract_token_run, Hfirst.
  - intros Hnone. apply no_candidate_no_token in Hnone.
    split; [done |]. unfold resolve_user. by rewrite Hnone.
Qed.

(** X22. A connection that carries no credential at all, in none of the
    four places, is never registered, whatever it sends and whatever the
    verifier would answer: the handler makes no [connect] call and sends
    no [registered] payload; a well-formed registration for a job that
    has an owner is answered [forbidden] and closed with code 1008. *)
Theorem no_credential_never_registered websocket frames (st : State E) :
  first_nonempty (token_candidates websocket) = None ->
  let r := websocket_preconnect E websocket frames st in
  (exists calls,
     manager_log r.2 = manager_log st ++ calls
     /\ (calls = [] \/ exists job, calls = [CallDisconnect job]))
  /\ (forall job owner,
        valid_register frames = Some job ->
        (get_job_owner E job st).1 = Ok (Some owner) ->
        ws_log r.2
        = ws_log st ++ [WsAccept; WsSendJson (ErrorPayload "forbidden");
                        WsClose 1008]
        /\ manager r.2 = manager st).
Proof.
  intros Hnone r. subst r.
  assert (resolve_user E (extract_token websocket) = None) as Huser.
  { unfold resolve_user. by rewrite (no_candidate_no_token websocket Hnone). }
  destruct (valid_register frames) as [job |] eqn:Hvalid.
  2:{ rewrite (handshake_malformed_run websocket frames st Hvalid).
      cbn [fst snd manager_log]. split; [| discriminate].
      exists []. rewrite app_nil_r. auto. }
  destruct (valid_register_inv frames job Hvalid) as (Hjob & rest & ->).
  destruct (handshake_register_run websocket job rest st Hjob)
    as (_ & _ & _ & _ & Hcase).
  rewrite Huser in Hcase.
  split.
  - destruct (get_job_owner E job st).1 as [[owner |] | e].
    + rewrite bool_decide_eq_false_2 in Hcase by discriminate.
      destruct Hcase as (_ & -> & _). exists []. rewrite app_nil_r. auto.
    + destruct Hcase as (_ & -> & _). exists []. rewrite app_nil_r. auto.
    + destruct Hcase as (_ & -> & _). eauto.
  - intros job' owner [= <-] Hlookup. rewrite Hlookup in Hcase.
    rewrite bool_decide_eq_false_2 in Hcase by discriminate.
    by destruct Hcase as (-> & _ & ->).
Qed.

(** ** The locations of a callback *)

(** X23. The locations the webhook works on, for any callback: they are
    the list of the body, unchanged and in its order, with the primary
    location put in front exactly when it is not an element yet. So a
    non-empty primary location is always among them, at most one element
    is added, duplicates of the list are kept, and normalizing the result
    again changes nothing. *)
Theorem all_keys_of_adds_the_primary_once (key : string)
    (paths : option (list string)) :
  let l := default [] paths in
  let keys := all_keys_of key paths in
  (keys = if bool_decide (key <> EmptyString /\ key ∉ l) then key :: l else l)
  /\ (key <> EmptyString -> key ∈ keys)
  /\ (forall k, k ∈ l -> k ∈ keys)
  /\ (length l <= length keys <= S (length l))%nat
  /\ all_keys_of key (Some keys) = keys.
Proof.
  intros l keys.
  assert (forall o : option (list string),
            (if list_truthy o then default [] o else []) = default [] o) as Hor.
  { by intros [[| x xs] |]. }
  assert (forall k ks, all_keys_of k ks
            = if bool_decide (k <> EmptyString /\ k ∉ default [] ks)
              then k :: default [] ks else default [] ks) as Hrun.
  { intros k ks. unfold all_keys_of. rewrite Hor. unfold str_truthy.
    destruct (String.eqb_spec k EmptyString) as [-> | Hk]; cbn [negb andb].
    - rewrite bool_decide_eq_false_2; [done | by intros [? _]].
    - destruct (py_in k (default [] ks)) eqn:Hin; cbn [negb].
      + apply py_in_spec in Hin.
        rewrite bool_decide_eq_false_2; [done | by intros [_ ?]].
      + rewrite bool_decide_eq_true_2; [done |]. split; [done |].
        intros Hin'. apply py_in_spec in Hin'. congruence. }
  subst keys l. rewrite !Hrun. cbn [default from_option id].
  destruct (bool_decide_reflect (key <> EmptyString /\ key ∉ default [] paths))
    as [[Hkey Hnotin] | Hno].
  - split_and!;
      [done | intros _; by left | intros k ?; by right | cbn; lia | cbn; lia |].
    rewrite bool_decide_eq_false_2; [done |].
    intros [_ Hnot]. apply Hnot. by left.
  - split_and!; [done | | done | lia | lia |].
    + intros Hkey. destruct (decide (key ∈ default [] paths)); [done |].
      by destruct Hno.
    + by rewrite bool_decide_eq_false_2.
Qed.

End More.

(** ** The further properties on concrete runs *)

Lemma rejected_callback_witness :
  let request := callback None (Some "a") None in
  (handle_webhook env1 request state1).2 = state1
  /\ http_status 202 (handle_webhook env1 request state1).1 = 400.
Proof.
  intros request.
  destruct (rejected_callback_changes_nothing env1 request state1)
    as (Hstate & _ & Hstatus).
  - intros (_ & Hjob & _). discriminate Hjob.
  - split; [exact Hstate | apply Hstatus; reflexivity].
Defined.

Lemma webhook_writes_witness :
  let request := callback (Some "J1") (Some "a") (Some ["a"; "b"]) in
  table (handle_webhook env1 request state1).2 !! "J1"
  = Some {| user_id := Some "U1"; processing_status := "COMPLETED";
            s3_result_path := Some "a";
            s3_result_paths := VStr (PyJson.dumps ["a"; "b"]) |}.
Proof.
  intros request.
  destruct (webhook_writes_are_read_back env1 request state1
              (pending_row (Some "U1"))) as (Hrich & _ & _).
  - repeat split; reflexivity.
  - reflexivity.
  - vm_compute. reflexivity.
  - exact (Hrich eq_refl eq_refl).
Defined.

Lemma callback_without_list_witness :
  let request := callback (Some "J1") (Some "c") None in
  let st := initial_state env1 table_json_list ∅ in
  let st' := (handle_webhook env1 request st).2 in
  s3_log (get_result_status env1 "J1" st').2
  = s3_log st' ++ [VStr "a"; VStr "b"]
  /\ (get_result_status env1 "J1" st').1
     = Ok {| resp_job_id := "J1"; resp_status := "COMPLETED";
             resp_result_url := Some "https://s3/a";
             resp_result_urls := Some ["https://s3/a"; "https://s3/b"] |}.
Proof.
  intros request st st'.
  destruct (callback_without_list_leaves_status_on_old_list env1 request st
              (completed_row (Some "a") (VStr (PyJson.dumps ["a"; "b"])))
              (PyJson.dumps ["a"; "b"]) [VStr "a"; VStr "b"])
    as [Hlog Hresp].
  - repeat split; reflexivity.
  - reflexivity.
  - reflexivity.
  - intros n q. reflexivity.
  - vm_compute. reflexivity.
  - reflexivity.
  - vm_compute. reflexivity.
  - vm_compute. reflexivity.
  - discriminate.
  - split; [exact Hlog | exact Hresp].
Defined.

Lemma old_schema_witness :
  let request := callback (Some "J1") (Some "a") (Some ["a"; "b"]) in
  let st := initial_state env_no_paths_column table1 ∅ in
  let st' := (handle_webhook env_no_paths_column request st).2 in
  table st' !! "J1"
  = Some {| user_id := Some "U1"; processing_status := "COMPLETED";
            s3_result_path := Some "a"; s3_result_paths := VNone |}
  /\ (get_result_status env_no_paths_column "J1" st').1
     = Ok {| resp_job_id := "J1"; resp_status := "COMPLETED";
             resp_result_url := Some "https://s3/a";
             resp_result_urls := Some ["https://s3/a"] |}.
Proof.
  intros request st st'.
  destruct (old_schema_falls_back_to_primary env_no_paths_column request st
              (pending_row (Some "U1"))) as (Hrow & _ & Hresp).
  - repeat split; reflexivity.
  - reflexivity.
  - intros n q. destruct q; reflexivity.
  - vm_compute. reflexivity.
  - split; [exact Hrow | exact Hresp].
Defined.

Lemma status_response_witness :
  let resp := {| resp_job_id := "J1"; resp_status := "COMPLETED";
                 resp_result_url := Some "https://s3/a";
                 resp_result_urls := Some ["https://s3/a"; "https://s3/b"] |} in
  (get_result_status env1 "J1" (initial_state env1 table_json_list ∅)).1 = Ok resp
  /\ resp_result_url resp = resp_result_urls resp ≫= head.
Proof.
  intros resp.
  assert ((get_result_status env1 "J1" (initial_state env1 table_json_list ∅)).1
          = Ok resp) as Hrun by (vm_compute; reflexivity).
  destruct (status_response_is_well_formed env1 "J1"
              (initial_state env1 table_json_list ∅) resp Hrun)
    as (_ & _ & Hfirst & _).
  split; [exact Hrun | exact Hfirst].
Defined.

Lemma status_query_on_number_witness :
  let r := get_result_status env1 "J1" (initial_state env1 table_json_number ∅) in
  s3_log r.2 = []
  /\ r.1 = Raise (PyException "TypeError: object is not iterable").
Proof.
  intros r.
  destruct (status_query_on_decoded_value env1 "J1"
              (initial_state env1 table_json_number ∅)
              {| rec_job_id := "J1"; rec_user_id := Some "U1";
                 rec_status := "COMPLETED"; rec_s3_result_path := Some "a";
                 rec_s3_result_paths := VStr "5" |}
              "5" (VInt 5))
    as (_ & _ & _ & _ & Hraise).
  - reflexivity.
  - vm_compute. reflexivity.
  - reflexivity.
  - reflexivity.
  - reflexivity.
  - vm_compute. reflexivity.
  - exact (Hraise eq_refl eq_refl).
Defined.

Lemma malformed_registration_witness :
  let r := websocket_preconnect env1 (websocket1 (Some "tok-U1"))
             [FrameNotJson] state1 in
  r.1 = Ok tt
  /\ sql_log r.2 = []
  /\ manager_log r.2 = []
  /\ ws_log r.2
     = [WsAccept; WsSendJson (ErrorPayload "invalid_json"); WsClose 1003].
Proof.
  intros r.
  destruct (malformed_registration_touches_nothing env1
              (websocket1 (Some "tok-U1")) [FrameNotJson] state1)
    as (Hok & _ & Hsql & _ & _ & Hlog & _ & reply & Hws & Hreply).
  - reflexivity.
  - subst reply. split_and!; [exact Hok | exact Hsql | exact Hlog | exact Hws].
Defined.

Lemma failed_owner_lookup_witness :
  let st := initial_state env_broken_db table1 registry1 in
  let r := websocket_preconnect env_broken_db (websocket1 (Some "tok-U1"))
             [FrameObject (Some "register") (Some "J1")] st in
  r.1 = Ok tt
  /\ ws_log r.2 = [WsAccept]
  /\ manager_log r.2 = [CallDisconnect "J1"]
  /\ manager r.2 = Registry.disconnect "J1" registry1.
Proof.
  intros st r.
  destruct (failed_owner_lookup_disconnects_the_job env_broken_db
              (websocket1 (Some "tok-U1")) "J1" [] st
              (PyException "mysql.connector.Error"))
    as (Hok & Hws & Hlog & Hman & _).
  - reflexivity.
  - vm_compute. reflexivity.
  - split_and!; [exact Hok | exact Hws | exact Hlog | exact Hman].
Defined.

Lemma handshake_connects_owner_witness :
  valid_register [FrameObject (Some "register") (Some "J1")] = Some "J1"
  /\ resolve_user env1 (extract_token (websocket1 (Some "tok-U1"))) = Some "U1"
  /\ table state1 !! "J1" ≫= user_id = Some "U1".
Proof.
  destruct (handshake_connects_only_the_owner env1 (websocket1 (Some "tok-U1"))
              [FrameObject (Some "register") (Some "J1")] state1
              [CallConnect "J1" 7 "U1"; CallDisconnect "J1"] "J1" 7 "U1")
    as (Hvalid & _ & Huser & _ & Howner).
  - vm_compute. reflexivity.
  - constructor.
  - split_and!; [exact Hvalid | exact Huser | exact Howner].
Defined.

Lemma subprotocol_token_witness :
  extract_token (websocket1 (Some " tok-U1 , v2")) = Some "tok-U1"
  /\ extract_token (websocket1 (Some " tok-U1 , v2,v3")) = Some "tok-U1".
Proof.
  destruct (subprotocol_token_is_first_item
              (websocket1 (Some " tok-U1 , v2")) " tok-U1 , v2")
    as (Htoken & _ & _ & _ & Hmore).
  - reflexivity.
  - reflexivity.
  - split; [exact Htoken |].
    exact (Hmore (websocket1 (Some " tok-U1 , v2,v3")) "v3" eq_refl).
Defined.

Lemma no_credential_witness :
  let r := websocket_preconnect env1 (websocket1 None)
             [FrameObject (Some "register") (Some "J1")] state1 in
  ws_log r.2 = [WsAccept; WsSendJson (ErrorPayload "forbidden"); WsClose 1008]
  /\ manager r.2 = ∅.
Proof.
  intros r.
  destruct (no_credential_never_registered env1 (websocket1 None)
              [FrameObject (Some "register") (Some "J1")] state1)
    as [_ Hforbidden].
  - reflexivity.
  - apply (Hforbidden "J1" "U1"); [reflexivity | vm_compute; reflexivity].
Defined.
